(** * make_domsub_script: the domain-substitution script generator

    A shallow embedding of [utils/make_domsub_script.py] and the proofs of
    its specification.

    Python text ([str]) is a sequence of Unicode code points; the file system
    is a finite map from paths to nodes, threaded through a state-and-error
    monad in which [make_domain_substitution_script] is written statement by
    statement. *)

From Stdlib Require Import NArith DecimalString.
From stdpp Require Import gmap strings list.
From Equations Require Import Equations.
From Equations.Prop Require Import Logic.

Local Open Scope N_scope.

(** ** Text *)

(** A Python [str]: the list of its code points. *)
Abbreviation text := (list N).

(** An ASCII literal as text. *)
Definition U (s : string) : text :=
  map Ascii.N_of_ascii (String.list_ascii_of_string s).

Definition LF : N := 10.
Definition CR : N := 13.

(** The double quote, kept out of the literals below. *)
Definition DQ : text := [34].

(** ** The Python library functions the script uses *)

(** The line boundaries of [str.splitlines]. *)
Definition is_linebreak (c : N) : bool :=
  (c =? 10) || (c =? 11) || (c =? 12) || (c =? 13) ||
  (c =? 28) || (c =? 29) || (c =? 30) || (c =? 133) ||
  (c =? 8232) || (c =? 8233).

(** [s.splitlines()]: the lines of [s] without their boundaries; a CR
    directly followed by LF is one boundary, and a final boundary opens no
    further line. *)
Fixpoint splitlines (s : text) : list text :=
  match s with
  | [] => []
  | c :: s' =>
      if is_linebreak c then
        [] :: match s' with
              | c' :: s'' =>
                  if (c =? CR) && (c' =? LF) then splitlines s''
                  else splitlines s'
              | [] => []
              end
      else
        match splitlines s' with
        | [] => [[c]]
        | l :: ls => (c :: l) :: ls
        end
  end.

(** Text-mode reading with [newline=None]: CR LF and a lone CR both arrive
    as LF. *)
Fixpoint universal_newlines (s : text) : text :=
  match s with
  | [] => []
  | c :: s' =>
      if c =? CR then
        LF :: match s' with
              | c' :: s'' =>
                  if c' =? LF then universal_newlines s''
                  else universal_newlines s'
              | [] => []
              end
      else c :: universal_newlines s'
  end.

(** [len(x)] used as the predicate of [filter]: true on the non-empty. *)
Definition len_truthy (x : text) : bool :=
  negb (Nat.eqb (length x) 0).

(** [tuple(filter(len, xs))]. *)
Definition filter_len (xs : list text) : list text :=
  List.filter len_truthy xs.

(** [sep.join(xs)]. *)
Fixpoint join (sep : text) (xs : list text) : text :=
  match xs with
  | [] => []
  | [x] => x
  | x :: xs' => x ++ sep ++ join sep xs'
  end.

(** [str(n)] for a length: its decimal digits. *)
Definition str_of_nat (n : nat) : text :=
  U (NilZero.string_of_uint (Nat.to_uint n)).

(** The arguments of a [%] format. *)
Inductive fmt_arg : Type :=
| ArgStr (s : text)
| ArgInt (n : nat).

(** [template % args] for the conversions [%s], [%d] and [%%]; [None] is
    Python's TypeError or ValueError (an argument missing, left over or of
    the wrong type, or another conversion). *)
Fixpoint percent_format (t : text) (args : list fmt_arg) : option text :=
  match t with
  | [] => match args with [] => Some [] | _ :: _ => None end
  | c :: t' =>
      if c =? 37 then
        match t' with
        | d :: t'' =>
            if d =? 115 then
              match args with
              | ArgStr s :: args' => app s <$> percent_format t'' args'
              | ArgInt n :: args' => app (str_of_nat n) <$> percent_format t'' args'
              | [] => None
              end
            else if d =? 100 then
              match args with
              | ArgInt n :: args' => app (str_of_nat n) <$> percent_format t'' args'
              | _ => None
              end
            else if d =? 37 then cons 37 <$> percent_format t'' args
            else None
        | [] => None
        end
      else cons c <$> percent_format t' args
  end.

(** ** The file system *)

(** What a path names: a regular file that decodes to text in the locale's
    encoding, kept as that text; a regular file that does not; or a
    directory. Text is written as it is, LF for a line break, as on a POSIX
    system. Paths are opaque keys. *)
Inductive node : Type :=
| TextFile (content : text)
| RawFile (bytes : list N)
| Directory.

Abbreviation path := string.
Abbreviation fs := (gmap string node).

Inductive exn : Type :=
| FileNotFoundError (p : path)
| FileExistsError (p : path)
| IsADirectoryError (p : path)
| UnicodeDecodeError (p : path)
| OSError (p : path)
| TypeError
| ValueError.

Inductive outcome (A : Type) : Type :=
| Returned (a : A)
| Raised (e : exn).
Arguments Returned {A} a.
Arguments Raised {A} e.

(** A computation on the file system that returns or raises. *)
Definition io (A : Type) : Type := fs -> outcome A * fs.

Definition ret {A} (a : A) : io A := fun σ => (Returned a, σ).
Definition raise {A} (e : exn) : io A := fun σ => (Raised e, σ).
Definition bind {A B} (m : io A) (k : A -> io B) : io B :=
  fun σ =>
    match m σ with
    | (Returned a, σ') => k a σ'
    | (Raised e, σ') => (Raised e, σ')
    end.

Notation "'let*' x ':=' m 'in' k" := (bind m (fun x => k))
  (at level 10, x name, m at level 100, k at level 200, only parsing).

(** [p.exists()]. *)
Definition path_exists (p : path) : io bool :=
  fun σ => (Returned (bool_decide (is_Some (σ !! p))), σ).

(** [p.read_text()]. *)
Definition read_text (p : path) : io text :=
  fun σ =>
    match σ !! p with
    | Some (TextFile content) => (Returned (universal_newlines content), σ)
    | Some (RawFile _) => (Raised (UnicodeDecodeError p), σ)
    | Some Directory => (Raised (IsADirectoryError p), σ)
    | None => (Raised (FileNotFoundError p), σ)
    end.

(** What the operating system may refuse when the output is written. The
    map of paths does not say whether a path can be opened for writing (its
    directory may be missing or closed to the caller) nor whether the text
    will reach the file (the disk may fill up): the device does.
    [open_error σ p] is the OSError that [open(p, 'w')] raises in [σ], if
    it raises; [write_error σ p s] is the OSError that writing [s] to [p]
    and closing it raises, if it does, with what is then left at [p], an
    empty file or a file cut short. *)
Record device : Type := {
  open_error : fs -> path -> option exn;
  write_error : fs -> path -> text -> option (node * exn) }.

(** [open(p, 'w')]: the file is created, or emptied if it is there, unless
    the open fails, which leaves everything as it was; the handle is the
    path. *)
Definition open_w (dev : device) (p : path) : io path :=
  fun σ =>
    match σ !! p with
    | Some Directory => (Raised (IsADirectoryError p), σ)
    | _ =>
        match open_error dev σ p with
        | Some e => (Raised e, σ)
        | None => (Returned p, <[p := TextFile []]> σ)
        end
    end.

(** [out.write(s)] and the close at the end of the [with] block: the text
    goes behind what the file holds, unless the device fails, which leaves
    the file as the device says; without an open file behind the handle it
    is Python's ValueError. *)
Definition write (dev : device) (out : path) (s : text) : io unit :=
  fun σ =>
    match σ !! out with
    | Some (TextFile content) =>
        match write_error dev σ out s with
        | Some (rest, e) => (Raised e, <[out := rest]> σ)
        | None => (Returned tt, <[out := TextFile (content ++ s)]> σ)
        end
    | _ => (Raised ValueError, σ)
    end.

(** What opening the free path [p] and writing [s] to it come to. *)
Definition written (dev : device) (σ : fs) (p : path) (s : text)
    : outcome unit * fs :=
  match open_error dev σ p with
  | Some e => (Raised e, σ)
  | None =>
      match write_error dev (<[p := TextFile []]> σ) p s with
      | Some (rest, e) => (Raised e, <[p := rest]> σ)
      | None => (Returned tt, <[p := TextFile s]> σ)
      end
  end.

(** The device lets [s] be written to the new file [p]. *)
Definition writes_well (dev : device) (σ : fs) (p : path) (s : text) : Prop :=
  open_error dev σ p = None /\
  write_error dev (<[p := TextFile []]> σ) p s = None.

(** A device that never fails; one on which no file can be created, as
    when the directory of the path is not there; and one with a full disk:
    a file can be created and nothing can be written to it. *)
Definition reliable : device :=
  {| open_error := fun _ _ => None; write_error := fun _ _ _ => None |}.

Definition no_directory : device :=
  {| open_error := fun _ p => Some (FileNotFoundError p);
     write_error := fun _ _ _ => None |}.


(** A failed [%] raises. *)
Definition formatted (r : option text) : io text :=
  match r with
  | Some s => ret s
  | None => raise TypeError
  end.

(** ** The template *)

(** The literal of lines 45 to 75, line by line. The lines before the first
    conversion, up to the opening of the here-document: *)
Definition head_lines : list text :=
  [ U "#!/bin/sh -e";
    U "#";
    U "# This script performs domain substitution on the Chromium source files.";
    U "#";
    U "# Generated by make_domsub_script.py, part of the ungoogled-chromium project:";
    U "# https://github.com/ungoogled-software/ungoogled-chromium.git";
    U "#";
    [];
    U "# Check that we are inside the Chromium source tree";
    U "test -f build/config/compiler/BUILD.gn";
    [];
    U "# These filenames may contain spaces and/or other unusual characters";
    U "print_file_list() {";
    [9] ++ U "cat <<'__END__'" ].

(** The two halves of the progress message around the number of files. *)
Definition applying_pre : text :=
  U "echo " ++ DQ ++ U "Applying ungoogled-chromium domain substitution to ".
Definition applying_post : text :=
  U " files ..." ++ DQ.

(** The lines between the two lists, from the end of the here-document to
    the opening quote of the Perl program; [count] stands where the
    template has its [%d]. *)
Definition mid_lines (count : text) : list text :=
  [ U "__END__";
    U "}";
    [];
    U "echo " ++ DQ ++ U "Creating backup archive ..." ++ DQ;
    [];
    U "backup=domain-substitution.orig.tar";
    U "print_file_list | tar cf $backup --verbatim-files-from --files-from=-";
    [];
    applying_pre ++ count ++ applying_post;
    [];
    U "print_file_list | xargs -d '\n' perl -0777 -C0 -pwi -e '" ].

(** The lines after the Perl program; the last, empty one is the line break
    that ends [# end]. *)
Definition tail_lines : list text :=
  [ U "'"; []; U "# end"; [] ].

Definition script_template : text :=
  join [LF]
    (head_lines ++ [U "%s"] ++ mid_lines (U "%d") ++ [U "%s"] ++ tail_lines).

(** ** Reading the emitted script *)

(** The lines of a text that has LF as its only line break. *)
Fixpoint split_lf (s : text) : list text :=
  match s with
  | [] => [[]]
  | c :: s' =>
      if c =? LF then [] :: split_lf s'
      else
        match split_lf s' with
        | l :: ls => (c :: l) :: ls
        | [] => [[c]]
        end
  end.

(** The lines that follow the first line equal to [mark]. *)
Fixpoint lines_after (mark : text) (ls : list text) : list text :=
  match ls with
  | [] => []
  | l :: ls' => if bool_decide (l = mark) then ls' else lines_after mark ls'
  end.

(** The lines that come before the first line equal to [mark]. *)
Fixpoint lines_until (mark : text) (ls : list text) : list text :=
  match ls with
  | [] => []
  | l :: ls' => if bool_decide (l = mark) then [] else l :: lines_until mark ls'
  end.

(** What the emitted [print_file_list] prints, line by line: the body of
    its here-document, which the shell ends at the first line that is
    exactly [__END__]. *)
Definition print_file_list (script : text) : list text :=
  lines_until (U "__END__")
    (lines_after ([9] ++ U "cat <<'__END__'") (split_lf script)).

(** The lines a joined list takes up in a text: an empty list still leaves
    one empty line behind. *)
Definition block (ls : list text) : list text :=
  match ls with
  | [] => [[]]
  | _ :: _ => ls
  end.

(** A text cut at every line boundary, each boundary character on its
    own: the plain reading of a list that [splitlines] is compared with. *)
Fixpoint split_breaks (s : text) : list text :=
  match s with
  | [] => [[]]
  | c :: s' =>
      if is_linebreak c then [] :: split_breaks s'
      else
        match split_breaks s' with
        | l :: ls => (c :: l) :: ls
        | [] => [[c]]
        end
  end.

(** A text whose only line boundary is LF: a list that is newline-delimited
    and no more. *)
Definition only_LF (s : text) : bool :=
  forallb (fun c => negb (is_linebreak c) || (c =? LF)) s.

(** A newline-delimited list: a text in which every line boundary is a
    newline, LF or CR LF or CR, so that no line has a boundary of another
    kind in it. *)
Definition newline_delimited (s : text) : bool :=
  forallb (fun c => negb (is_linebreak c) || (c =? LF) || (c =? CR)) s.

(** The text up to the first line boundary, and the text behind the last. *)
Fixpoint first_line (s : text) : text :=
  match s with
  | [] => []
  | c :: s' => if is_linebreak c then [] else c :: first_line s'
  end.

Definition last_line (s : text) : text :=
  rev (first_line (rev s)).

(** The characters the rewrite of a placeholder takes away or puts in. *)
Definition gref_chars : list N := [92; 103; 60; 62; 36; 123; 125].

(** A table for the examples: the Arabic-Indic and the fullwidth digits. *)
Definition sample_Nd (c : N) : bool :=
  ((1632 <=? c) && (c <=? 1641)) || ((65296 <=? c) && (c <=? 65305)).

(** Contents for the examples: rules with an empty line and a
    back-reference, and files with a CR LF and a space in a name. *)
Definition sample_rules : text :=
  U "foo\.com#example\.com" ++ [LF; LF] ++
  U "fonts(\\*?)\.googleapis#f0ntz\g<1>.9oo91e8p1" ++ [LF].

Definition sample_files : text :=
  U "src/config.txt" ++ [CR; LF] ++ U "a b" ++ [LF].

(** File systems for the examples: the two lists; the same with a script
    already in place; a script alone; and the rules with a files list that
    has only line breaks in it. *)
Definition sample_fs : fs :=
  {[ "domain_regex.list" := TextFile sample_rules;
     "domain_substitution.list" := TextFile sample_files ]}.

Definition sample_fs_with_output : fs :=
  <["gen.sh" := TextFile (U "#!/bin/sh")]> sample_fs.


(** A files list with the line [__END__] in it, and its file system. *)
Definition sample_files_END : text :=
  U "a" ++ [LF] ++ U "__END__" ++ [LF] ++ U "b" ++ [LF].

Definition sample_fs_END : fs :=
  {[ "domain_regex.list" := TextFile sample_rules;
     "domain_substitution.list" := TextFile sample_files_END ]}.

Definition sample_fs_no_files : fs :=
  <["domain_substitution.list" := TextFile [LF; CR; LF]]> sample_fs.

(** The two lists of [sample_fs] saved with other line ends and with empty
    lines, and a file system that holds them. *)
Definition sample_rules_dos : text :=
  [CR; LF] ++ U "foo\.com#example\.com" ++ [CR; LF] ++
  U "fonts(\\*?)\.googleapis#f0ntz\g<1>.9oo91e8p1".

Definition sample_files_mac : text :=
  U "src/config.txt" ++ [CR] ++ U "a b" ++ [CR].

Definition sample_fs_other_line_ends : fs :=
  {[ "domain_regex.list" := TextFile sample_rules_dos;
     "domain_substitution.list" := TextFile sample_files_mac ]}.

(** A rule with a form feed in it, one line of a newline-delimited list,
    and a files list with a line that is a form feed and no more. *)
Definition sample_rules_FF : text :=
  U "foo" ++ [12] ++ U "bar#baz" ++ [LF].

Definition sample_fs_rules_FF : fs :=
  {[ "domain_regex.list" := TextFile sample_rules_FF;
     "domain_substitution.list" := TextFile sample_files ]}.

Definition sample_files_FF : text :=
  U "a" ++ [LF; 12; LF] ++ U "b" ++ [LF].

Definition sample_fs_files_FF : fs :=
  {[ "domain_regex.list" := TextFile sample_rules;
     "domain_substitution.list" := TextFile sample_files_FF ]}.

(** Lists with a line of a space and a tab in each. *)
Definition sample_rules_blank : text :=
  U "foo#bar" ++ [LF; 32; 9; LF] ++ U "baz#qux" ++ [LF].

Definition sample_files_blank : text :=
  U "a" ++ [LF; 32; 9; LF] ++ U "b".

Definition sample_fs_blank : fs :=
  {[ "domain_regex.list" := TextFile sample_rules_blank;
     "domain_substitution.list" := TextFile sample_files_blank ]}.

(** A directory in the place of the rules list. *)
Definition sample_fs_directory : fs :=
  <["domain_regex.list" := Directory]> sample_fs.

Section Generator.

(** The decimal digits (category Nd) of the Unicode database of the running
    Python, beyond ASCII. *)
Variable unicode_Nd : N -> bool.

(** The device the output is written to. *)
Variable dev : device.

(** What [\d] matches in a [str] pattern. *)
Definition is_digit (c : N) : bool :=
  ((48 <=? c) && (c <=? 57)) || ((128 <=? c) && unicode_Nd c).

(** The longest prefix of digits, and what follows it: the greedy [\d*]. *)
Fixpoint span_digits (s : text) : text * text :=
  match s with
  | c :: s' =>
      if is_digit c then
        let '(ds, rest) := span_digits s' in (c :: ds, rest)
      else ([], s)
  | [] => ([], [])
  end.

(** A match of the pattern [\\g<(\d+)>] at the start of [s]: group 1 and
    the text after the match. *)
Definition match_gref (s : text) : option (text * text) :=
  match s with
  | c1 :: c2 :: c3 :: s1 =>
      if (c1 =? 92) && (c2 =? 103) && (c3 =? 60) then
        match span_digits s1 with
        | (d :: ds, c4 :: s2) =>
            if c4 =? 62 then Some (d :: ds, s2) else None
        | _ => None
        end
      else None
  | _ => None
  end.

(** [re.sub(r'\\g<(\d+)>', r'${\1}', s)]: scanning from the left, every
    match is replaced by [${], its group 1 and [}], and the scan resumes
    after the match; any other character is copied. *)
Equations? re_sub (s : text) : text by wf (length s) lt :=
  re_sub [] := [];
  re_sub (c :: s') with inspect (match_gref (c :: s')) => {
    | exist _ (Some m) Hm => [36; 123] ++ m.1 ++ [125] ++ re_sub m.2;
    | exist _ None _ => c :: re_sub s' }.
Proof.
  clear re_sub. destruct s' as [|c2 [|c3 s1]]; try discriminate.
    simpl in Hm.
    destruct ((c =? 92) && (c2 =? 103) && (c3 =? 60)); try discriminate.
    assert (Hsp : forall t, (length (span_digits t).2 <= length t)%nat).
    { induction t as [|a t IH]; simpl; [lia|].
      destruct (is_digit a); simpl; [|lia].
      destruct (span_digits t); simpl in *; lia. }
    specialize (Hsp s1).
    destruct (span_digits s1) as [[|d ds'] [|c4 s2]]; try discriminate.
    destruct (c4 =? 62); try discriminate.
    injection Hm as <-. simpl in *. subst. lia.
Qed.

(** ** The script *)

(** The body of the comprehension of line 39: the rule as a Perl [s###g]
    operation. *)
Definition perl_op (x : text) : text :=
  U "s#" ++ re_sub x ++ U "#g".

Definition perl_replace_list (regex_list : list text) : list text :=
  map perl_op regex_list.

(** Line 41. *)
Definition files_list_str (files_list : list text) : text :=
  join [LF] files_list.

(** The f-string of line 42: an operation indented by four spaces and closed
    by [;]. *)
Definition perl_line (x : text) : text :=
  U "    " ++ x ++ U ";".

Definition perl_replace_list_str (perl_replace_list : list text) : text :=
  join [LF] (map perl_line perl_replace_list).

(** Lines 39 to 42 and the [%] of lines 45 to 75, the argument of
    [out.write]: the template filled with the file list, the number of files
    and the Perl operations. *)
Definition script_text (regex_list files_list : list text) : option text :=
  percent_format script_template
    [ ArgStr (files_list_str files_list);
      ArgInt (length files_list);
      ArgStr (perl_replace_list_str (perl_replace_list regex_list)) ].

(** What [script_text] comes to, as [script_text_lines] shows below: the
    lines of the template, with the file list and the Perl operations in the
    place of the two [%s] and the number of files in the place of [%d]. *)
Definition script_lines (regex_list files_list : list text) : list text :=
  head_lines ++ block files_list ++
  mid_lines (str_of_nat (length files_list)) ++
  block (map perl_line (perl_replace_list regex_list)) ++
  tail_lines.

(** The script for the contents of the two lists, which [run_cases] shows
    to be the text a run hands to the device. *)
Definition generated (regex_content files_content : text) : text :=
  join [LF] (script_lines (filter_len (splitlines regex_content))
                          (filter_len (splitlines files_content))).

(** ** The generator *)

Definition make_domain_substitution_script
    (regex_path files_path output_path : path) : io unit :=
  let* regex_there := path_exists regex_path in
  if negb regex_there then raise (FileNotFoundError regex_path) else
  let* files_there := path_exists files_path in
  if negb files_there then raise (FileNotFoundError files_path) else
  let* output_there := path_exists output_path in
  if output_there then raise (FileExistsError output_path) else
  let* regex_text := read_text regex_path in
  let regex_list := filter_len (splitlines regex_text) in
  let* files_text := read_text files_path in
  let files_list := filter_len (splitlines files_text) in
  let* out := open_w dev output_path in
  let* script := formatted (script_text regex_list files_list) in
  write dev out script.

(** ** Matches left in a text *)

(** A match of the pattern somewhere in [s]. *)
Fixpoint has_gref (s : text) : bool :=
  match s with
  | [] => false
  | _ :: s' => bool_decide (is_Some (match_gref s)) || has_gref s'
  end.

(** A character that cannot continue a match past its first character:
    neither [g], [<], [>] nor a digit. *)
Definition outside_gref (c : N) : bool :=
  negb (c =? 103) && negb (c =? 60) && negb (c =? 62) && negb (is_digit c).

(** ** The back-reference rewrite *)

Lemma re_sub_cons c s' :
  re_sub (c :: s') =
  match match_gref (c :: s') with
  | Some m => [36; 123] ++ m.1 ++ [125] ++ re_sub m.2
  | None => c :: re_sub s'
  end.
Proof.
  destruct (match_gref (c :: s')) as [m|] eqn:E;
    rewrite re_sub_equation_2;
    generalize (inspect (match_gref (c :: s')));
    intros [[m'|] e]; try congruence.
  - assert (m' = m) by congruence. subst m'.
    unfold re_sub_unfold_clause_2. reflexivity.
  - reflexivity.
Qed.

Lemma span_digits_spec s :
  s = (span_digits s).1 ++ (span_digits s).2 /\
  forallb is_digit (span_digits s).1 = true.
Proof.
  induction s as [|c s [IH1 IH2]]; simpl; [done|].
  destruct (is_digit c) eqn:Hc; simpl; [|done].
  destruct (span_digits s) as [ds rest]; simpl in *.
  rewrite Hc, IH2. split; [congruence | done].
Qed.

Lemma span_digits_app_stop a c b :
  is_digit c = false ->
  span_digits (a ++ c :: b) = ((span_digits a).1, (span_digits a).2 ++ c :: b).
Proof.
  intros Hc. induction a as [|x a IH]; simpl.
  - by rewrite Hc.
  - destruct (is_digit x); simpl; [|done].
    rewrite IH. by destruct (span_digits a).
Qed.

Lemma span_digits_all ds c b :
  forallb is_digit ds = true -> is_digit c = false ->
  span_digits (ds ++ c :: b) = (ds, c :: b).
Proof.
  intros Hds Hc. induction ds as [|d ds IH]; simpl in *.
  - by rewrite Hc.
  - apply andb_prop in Hds as [-> Hds]. by rewrite IH.
Qed.

Lemma match_gref_Some s m :
  match_gref s = Some m ->
  s = [92; 103; 60] ++ m.1 ++ 62 :: m.2 /\ m.1 <> [] /\
  forallb is_digit m.1 = true.
Proof.
  destruct s as [|c1 [|c2 [|c3 s1]]]; try discriminate. simpl.
  destruct (c1 =? 92) eqn:H1; [|discriminate].
  destruct (c2 =? 103) eqn:H2; [|discriminate].
  destruct (c3 =? 60) eqn:H3; [|discriminate]. simpl.
  apply N.eqb_eq in H1, H2, H3. subst.
  destruct (span_digits_spec s1) as [Hs Hd].
  destruct (span_digits s1) as [[|d ds] [|c4 s2]]; try discriminate.
  destruct (c4 =? 62) eqn:H4; [|discriminate].
  apply N.eqb_eq in H4. intros [= <-]. simpl in *. by subst.
Qed.

Lemma match_gref_intro ds rest :
  ds <> [] -> forallb is_digit ds = true ->
  match_gref ([92; 103; 60] ++ ds ++ 62 :: rest) = Some (ds, rest).
Proof.
  intros Hne Hds. simpl. rewrite span_digits_all by done.
  by destruct ds.
Qed.

Lemma match_gref_first c s :
  c <> 92 -> match_gref (c :: s) = None.
Proof.
  intros Hc. destruct s as [|c2 [|c3 s1]]; try done. simpl.
  apply N.eqb_neq in Hc. by rewrite Hc.
Qed.

Lemma match_gref_app_stop a c b :
  a <> [] -> outside_gref c = true ->
  match_gref (a ++ c :: b) = (fun m => (m.1, m.2 ++ c :: b)) <$> match_gref a.
Proof.
  unfold outside_gref. intros Ha Hc.
  apply andb_prop in Hc as [Hc Hd]. apply andb_prop in Hc as [Hc H62].
  apply andb_prop in Hc as [H103 H60].
  apply negb_true_iff in H103, H60, H62, Hd.
  destruct a as [|c1 [|c2 [|c3 s1]]]; [done| | |]; simpl.
  - destruct b; [done|]. by rewrite H103, andb_false_r.
  - by rewrite H60, andb_false_r.
  - destruct ((c1 =? 92) && (c2 =? 103) && (c3 =? 60)); [|done].
    rewrite span_digits_app_stop by done.
    destruct (span_digits s1) as [[|d ds] [|c4 s2]]; simpl; try done.
    + by rewrite H62.
    + by destruct (c4 =? 62).
Qed.

(** The rewrite works on the two sides of a character that no match can
    run across. *)
Lemma re_sub_app_stop a c b :
  outside_gref c = true ->
  re_sub (a ++ c :: b) = re_sub a ++ re_sub (c :: b).
Proof.
  intros Hc. remember (length a) as n eqn:Hn. revert a Hn.
  induction n as [n IH] using lt_wf_ind. intros [|x a] Hn.
  - by rewrite re_sub_equation_1.
  - change ((x :: a) ++ c :: b) with (x :: (a ++ c :: b)).
    rewrite (re_sub_cons x (a ++ c :: b)), (re_sub_cons x a).
    change (x :: (a ++ c :: b)) with ((x :: a) ++ c :: b).
    rewrite match_gref_app_stop by done.
    destruct (match_gref (x :: a)) as [m|] eqn:Hm; simpl.
    + destruct (match_gref_Some _ _ Hm) as (Hs & _ & _).
      rewrite (IH (length m.2)); [ | | done].
      * by rewrite <- !app_assoc.
      * rewrite Hn, Hs. simpl. rewrite length_app. simpl. lia.
    + f_equal. apply (IH (length a)); [simpl in Hn; lia | done].
Qed.

Lemma re_sub_gref ds post :
  ds <> [] -> forallb is_digit ds = true ->
  re_sub ([92; 103; 60] ++ ds ++ 62 :: post) =
  [36; 123] ++ ds ++ [125] ++ re_sub post.
Proof.
  intros Hne Hds.
  change ([92; 103; 60] ++ ds ++ 62 :: post)
    with (92 :: ([103; 60] ++ ds ++ 62 :: post)).
  rewrite re_sub_cons.
  change (92 :: ([103; 60] ++ ds ++ 62 :: post))
    with ([92; 103; 60] ++ ds ++ 62 :: post).
  by rewrite match_gref_intro.
Qed.

(** A prefix of the result that holds neither a backslash nor a dollar was
    copied from the argument. *)
Lemma re_sub_prefix_inv a s t :
  Forall (fun c => c <> 92 /\ c <> 36) a ->
  re_sub s = a ++ t -> exists t', s = a ++ t' /\ re_sub t' = t.
Proof.
  intros Ha. revert s. induction Ha as [|x a [H92 H36] Ha IH]; intros s Hs.
  - by exists s.
  - destruct s as [|c s]; [by rewrite re_sub_equation_1 in Hs|].
    rewrite re_sub_cons in Hs.
    destruct (match_gref (c :: s)) as [m|]; simpl in Hs.
    + congruence.
    + injection Hs as -> Hs. destruct (IH _ Hs) as (t' & -> & Ht).
      by exists t'.
Qed.

Lemma is_digit_not_ascii c :
  is_digit c = true -> c < 128 -> 48 <= c <= 57.
Proof.
  unfold is_digit. intros H Hc.
  apply orb_prop in H as [H|H]; apply andb_prop in H as [H1 H2].
  - apply N.leb_le in H1, H2. lia.
  - apply N.leb_le in H1. lia.
Qed.

Lemma digits_plain ds :
  forallb is_digit ds = true -> Forall (fun c => c <> 92 /\ c <> 36) ds.
Proof.
  intros Hds. apply Forall_forall. intros c Hc.
  rewrite forallb_forall in Hds.
  assert (Hd : is_digit c = true) by (apply Hds; by apply list_elem_of_In).
  split; intros ->; apply is_digit_not_ascii in Hd; lia.
Qed.

(** Where the result has a match behind a copied character, the argument
    had one at that character. *)
Lemma match_gref_copied c s :
  is_Some (match_gref (c :: re_sub s)) -> is_Some (match_gref (c :: s)).
Proof.
  intros [m Hm]. destruct (match_gref_Some _ _ Hm) as (Hs & Hne & Hds).
  injection Hs as -> Hs.
  destruct (re_sub_prefix_inv ([103; 60] ++ m.1 ++ [62]) s m.2) as (t' & -> & _).
  - repeat (apply Forall_cons; split; [done|]).
    apply Forall_app. split; [by apply digits_plain|].
    by apply Forall_cons.
  - rewrite Hs. simpl. by rewrite <- app_assoc.
  - exists (m.1, t').
    rewrite <- (match_gref_intro m.1 t') by done.
    simpl. by rewrite <- app_assoc.
Qed.

Lemma has_gref_skip a b :
  Forall (fun c => c <> 92) a -> has_gref (a ++ b) = has_gref b.
Proof.
  induction 1 as [|x a Hx Ha IH]; [done|].
  change ((x :: a) ++ b) with (x :: (a ++ b)). cbn [has_gref].
  rewrite match_gref_first by done. rewrite IH.
  rewrite bool_decide_eq_false_2; [done|]. by intros [? ?].
Qed.

Lemma has_gref_app_stop a c b :
  outside_gref c = true ->
  has_gref (a ++ c :: b) = has_gref a || has_gref (c :: b).
Proof.
  intros Hc. induction a as [|x a IH]; [done|].
  change ((x :: a) ++ c :: b) with (x :: (a ++ c :: b)).
  cbn [has_gref]. rewrite IH, orb_assoc. do 2 f_equal.
  change (x :: (a ++ c :: b)) with ((x :: a) ++ c :: b).
  rewrite match_gref_app_stop by done.
  apply bool_decide_ext. by rewrite fmap_is_Some.
Qed.

Lemma has_gref_found pre s :
  is_Some (match_gref s) -> has_gref (pre ++ s) = true.
Proof.
  intros Hs. induction pre as [|x pre IH].
  - destruct s as [|c s]; [by destruct Hs|]. rewrite app_nil_l.
    cbn [has_gref]. by rewrite bool_decide_eq_true_2.
  - change ((x :: pre) ++ s) with (x :: (pre ++ s)). cbn [has_gref].
    by rewrite IH, orb_true_r.
Qed.

(** No match is left in the result of the rewrite. *)
Lemma has_gref_re_sub s : has_gref (re_sub s) = false.
Proof.
  remember (length s) as n eqn:Hn. revert s Hn.
  induction n as [n IH] using lt_wf_ind. intros [|c s] Hn.
  - by rewrite re_sub_equation_1.
  - rewrite re_sub_cons.
    destruct (match_gref (c :: s)) as [m|] eqn:Hm.
    + destruct (match_gref_Some _ _ Hm) as (Hs & _ & Hds).
      rewrite (app_assoc _ m.1), (app_assoc _ [125]).
      rewrite has_gref_skip.
      * apply (IH (length m.2)); [|done].
        rewrite Hn, Hs. simpl. rewrite length_app. simpl. lia.
      * repeat (apply Forall_app; split); try by repeat constructor.
        eapply Forall_impl; [by apply digits_plain|]. by intros ? [? ?].
    + cbn [has_gref]. rewrite (IH (length s)); [|simpl in Hn; lia|done].
      rewrite orb_false_r. apply bool_decide_eq_false_2.
      intros H. apply match_gref_copied in H. rewrite Hm in H.
      by destruct H.
Qed.

(** ** Lines *)

Lemma join_cons sep x xs :
  xs <> [] -> join sep (x :: xs) = x ++ sep ++ join sep xs.
Proof. by destruct xs. Qed.

Lemma join_app sep xs ys :
  xs <> [] -> ys <> [] ->
  join sep (xs ++ ys) = join sep xs ++ sep ++ join sep ys.
Proof.
  intros Hxs Hys. induction xs as [|x xs IH]; [done|].
  destruct xs as [|x' xs].
  - simpl app. by rewrite join_cons.
  - change ((x :: x' :: xs) ++ ys) with (x :: ((x' :: xs) ++ ys)).
    rewrite !join_cons, IH by done. by rewrite <- !app_assoc.
Qed.

Lemma join_block sep ls : join sep (block ls) = join sep ls.
Proof. by destruct ls. Qed.

Lemma block_nonempty ls : block ls <> [].
Proof. by destruct ls. Qed.

Lemma split_lf_line l :
  Forall (fun c => c <> LF) l -> split_lf l = [l].
Proof.
  induction 1 as [|c l Hc Hl IH]; [done|]. simpl.
  apply N.eqb_neq in Hc. by rewrite Hc, IH.
Qed.

Lemma split_lf_app l s :
  Forall (fun c => c <> LF) l -> split_lf (l ++ LF :: s) = l :: split_lf s.
Proof.
  induction 1 as [|c l Hc Hl IH]; [done|].
  change ((c :: l) ++ LF :: s) with (c :: (l ++ LF :: s)). cbn [split_lf].
  apply N.eqb_neq in Hc. by rewrite Hc, IH.
Qed.

(** Splitting undoes joining, for lines that hold no LF. *)
Lemma split_lf_join ls :
  ls <> [] -> Forall (Forall (fun c => c <> LF)) ls ->
  split_lf (join [LF] ls) = ls.
Proof.
  intros Hne Hls. induction Hls as [|l ls Hl Hls IH]; [done|].
  destruct ls as [|l' ls].
  - by apply split_lf_line.
  - rewrite join_cons by done. change ([LF] ++ ?x) with (LF :: x).
    rewrite split_lf_app by done. by rewrite IH.
Qed.

Lemma is_linebreak_LF : is_linebreak LF = true.
Proof. reflexivity. Qed.

Lemma not_linebreak_not_LF l :
  Forall (fun c => is_linebreak c = false) l -> Forall (fun c => c <> LF) l.
Proof.
  intros H. eapply Forall_impl; [exact H|].
  intros c Hc ->. by rewrite is_linebreak_LF in Hc.
Qed.

(** Reasoning on [splitlines], which may step over two characters. *)
Lemma text_ind2 (P : text -> Prop) :
  P [] -> (forall c, P [c]) ->
  (forall c c' s, P s -> P (c' :: s) -> P (c :: c' :: s)) ->
  forall s, P s.
Proof.
  intros H0 H1 H2 s.
  assert (H : P s /\ forall c, P (c :: s)); [|by destruct H].
  induction s as [|c s [IH1 IH2]]; [by split|].
  split; [done|]. intros c0. by apply H2.
Qed.

Lemma splitlines_cons c s :
  splitlines (c :: s) =
  if is_linebreak c then
    [] :: match s with
          | c' :: s'' =>
              if (c =? CR) && (c' =? LF) then splitlines s'' else splitlines s
          | [] => []
          end
  else match splitlines s with
       | [] => [[c]]
       | l :: ls => (c :: l) :: ls
       end.
Proof. reflexivity. Qed.

(** No line of [splitlines] holds a line boundary. *)
Lemma splitlines_no_linebreak s :
  Forall (Forall (fun c => is_linebreak c = false)) (splitlines s).
Proof.
  induction s as [| c | c c' s IH1 IH2] using text_ind2.
  - constructor.
  - simpl. destruct (is_linebreak c) eqn:Hc; repeat constructor; done.
  - rewrite splitlines_cons.
    destruct (is_linebreak c) eqn:Hc.
    + constructor; [constructor|]. by destruct ((c =? CR) && (c' =? LF)).
    + destruct (splitlines (c' :: s)) as [|l ls].
      * by repeat constructor.
      * inversion IH2; subst. by repeat constructor.
Qed.

Lemma splitlines_break c s :
  is_linebreak c = true -> c <> CR -> splitlines (c :: s) = [] :: splitlines s.
Proof.
  intros Hc Hcr. rewrite splitlines_cons, Hc.
  apply N.eqb_neq in Hcr. rewrite Hcr. by destruct s.
Qed.

Lemma universal_newlines_cons c s :
  universal_newlines (c :: s) =
  if c =? CR then
    LF :: match s with
          | c' :: s'' =>
              if c' =? LF then universal_newlines s'' else universal_newlines s
          | [] => []
          end
  else c :: universal_newlines s.
Proof. reflexivity. Qed.

(** The translation of line breaks on reading changes no line. *)
Lemma splitlines_universal_newlines s :
  splitlines (universal_newlines s) = splitlines s.
Proof.
  induction s as [| c | c c' s IH1 IH2] using text_ind2.
  - done.
  - rewrite universal_newlines_cons. destruct (c =? CR) eqn:Hc; [|done].
    apply N.eqb_eq in Hc. by subst.
  - rewrite universal_newlines_cons. destruct (c =? CR) eqn:Hc.
    + apply N.eqb_eq in Hc. subst c.
      rewrite splitlines_break by done.
      rewrite (splitlines_cons CR (c' :: s)).
      change (is_linebreak CR) with true. cbv iota.
      rewrite N.eqb_refl, andb_true_l.
      by destruct (c' =? LF); rewrite ?IH1, ?IH2.
    + rewrite (splitlines_cons c (universal_newlines (c' :: s))).
      rewrite (splitlines_cons c (c' :: s)), Hc, IH2, andb_false_l.
      destruct (is_linebreak c); [|done]. f_equal.
      destruct (universal_newlines (c' :: s)) eqn:E; [|by rewrite andb_false_l].
      by rewrite <- IH2.
Qed.

Lemma splitlines_line l s :
  l <> [] -> Forall (fun c => is_linebreak c = false) l ->
  splitlines (l ++ LF :: s) = l :: splitlines s.
Proof.
  intros Hne Hl. induction Hl as [|c l Hc Hl IH]; [done|].
  change ((c :: l) ++ LF :: s) with (c :: (l ++ LF :: s)).
  rewrite splitlines_cons, Hc. destruct l as [|c1 l].
  - rewrite app_nil_l, (splitlines_cons LF). by destruct s.
  - by rewrite IH.
Qed.

(** Whatever comes before an LF, the lines after it are those of the rest. *)
Lemma splitlines_app_LF pre s :
  exists l ls, splitlines (pre ++ LF :: s) = (l :: ls) ++ splitlines s.
Proof.
  induction pre as [| c | c c' pre IH1 IH2] using text_ind2.
  - exists [], []. rewrite app_nil_l, splitlines_cons. by destruct s.
  - change ([c] ++ LF :: s) with (c :: LF :: s). rewrite splitlines_cons.
    destruct (is_linebreak c).
    + destruct ((c =? CR) && (LF =? LF)).
      * by exists [], [].
      * exists [], [[]]. rewrite (splitlines_cons LF). by destruct s.
    + exists [c], []. rewrite (splitlines_cons LF). by destruct s.
  - change ((c :: c' :: pre) ++ LF :: s) with (c :: c' :: (pre ++ LF :: s)).
    rewrite splitlines_cons.
    destruct IH1 as (l1 & ls1 & E1). destruct IH2 as (l2 & ls2 & E2).
    change ((c' :: pre) ++ LF :: s) with (c' :: (pre ++ LF :: s)) in E2.
    destruct (is_linebreak c).
    + destruct ((c =? CR) && (c' =? LF)).
      * exists [], (l1 :: ls1). by rewrite E1.
      * exists [], (l2 :: ls2). by rewrite E2.
    + rewrite E2. by exists (c :: l2), ls2.
Qed.

Lemma filter_len_In (ls : list text) l :
  l ∈ filter_len ls <-> l ∈ ls /\ l <> [].
Proof.
  unfold filter_len. rewrite !list_elem_of_In, filter_In.
  unfold len_truthy. destruct l; simpl; split; intros [H1 H2]; by split.
Qed.

Lemma filter_len_sub ls Q :
  Forall Q ls -> Forall Q (filter_len ls).
Proof.
  rewrite !Forall_forall. intros H l Hl. apply H.
  by apply filter_len_In in Hl as [? _].
Qed.

(** ** The script, line by line *)

Lemma percent_format_literal lit t args :
  Forall (fun c => c <> 37) lit ->
  percent_format (lit ++ t) args = app lit <$> percent_format t args.
Proof.
  induction 1 as [|c lit Hc Hlit IH].
  - rewrite app_nil_l. by destruct (percent_format t args).
  - change ((c :: lit) ++ t) with (c :: (lit ++ t)). cbn [percent_format].
    apply N.eqb_neq in Hc. rewrite Hc, IH.
    by destruct (percent_format t args).
Qed.

Lemma percent_format_end lit :
  Forall (fun c => c <> 37) lit -> percent_format lit [] = Some lit.
Proof.
  induction 1 as [|c lit Hc Hlit IH]; [done|]. cbn [percent_format].
  apply N.eqb_neq in Hc. by rewrite Hc, IH.
Qed.

Lemma percent_format_s s t args :
  percent_format ([37; 115] ++ t) (ArgStr s :: args) =
  app s <$> percent_format t args.
Proof. reflexivity. Qed.

Lemma percent_format_d n t args :
  percent_format ([37; 100] ++ t) (ArgInt n :: args) =
  app (str_of_nat n) <$> percent_format t args.
Proof. reflexivity. Qed.

Lemma uint_digits (d : Decimal.uint) :
  Forall (fun c => 48 <= c <= 57) (U (NilEmpty.string_of_uint d)).
Proof.
  induction d; simpl; constructor; try done; simpl; lia.
Qed.

(** [str] of a length is a row of ASCII digits. *)
Lemma str_of_nat_digits n : Forall (fun c => 48 <= c <= 57) (str_of_nat n).
Proof.
  unfold str_of_nat, NilZero.string_of_uint.
  destruct (Nat.to_uint n) eqn:E; try apply uint_digits.
  repeat constructor; simpl; lia.
Qed.

(** The literal texts of the template around its three conversions. *)
Lemma script_template_parts :
  script_template =
    (join [LF] head_lines ++ [LF]) ++ [37; 115] ++
    ([LF] ++ join [LF] (take 8 (mid_lines [])) ++ [LF] ++ applying_pre) ++
    [37; 100] ++
    (applying_post ++ [LF] ++ join [LF] (drop 9 (mid_lines [])) ++ [LF]) ++
    [37; 115] ++
    ([LF] ++ join [LF] tail_lines).
Proof. vm_compute. reflexivity. Qed.

(** The [%] of lines 45 to 75 never fails: the script is the lines of the
    template, with the file list and the Perl operations in the place of
    the two [%s] and the number of files in the place of [%d], joined by
    LF. *)
Lemma script_text_lines regex_list files_list :
  script_text regex_list files_list =
  Some (join [LF] (script_lines regex_list files_list)).
Proof.
  unfold script_text, script_lines. rewrite script_template_parts.
  rewrite percent_format_literal, percent_format_s,
    percent_format_literal, percent_format_d,
    percent_format_literal, percent_format_s, percent_format_end
    by (vm_compute; repeat constructor; done).
  cbn [fmap option_fmap option_map].
  f_equal.
  rewrite (join_app _ head_lines) by (try done; by destruct files_list).
  rewrite (join_app _ (block files_list))
    by (try done; apply block_nonempty).
  rewrite (join_app _ (mid_lines _)) by (try done; by destruct regex_list).
  rewrite (join_app _ (block _)) by (try done; apply block_nonempty).
  rewrite !join_block.
  change (mid_lines (str_of_nat (length files_list)))
    with (take 8 (mid_lines []) ++
          [applying_pre ++ str_of_nat (length files_list) ++ applying_post] ++
          drop 9 (mid_lines [])).
  rewrite (join_app _ (take 8 _)) by done.
  rewrite (join_app _ [_]) by done.
  unfold files_list_str, perl_replace_list_str. cbn [join].
  by rewrite <- !app_assoc.
Qed.

Lemma no_LF_literal (l : text) :
  forallb (fun c => negb (c =? LF)) l = true -> Forall (fun c => c <> LF) l.
Proof.
  rewrite forallb_forall, Forall_forall. intros H c Hc.
  apply list_elem_of_In, H, negb_true_iff in Hc. by apply N.eqb_neq.
Qed.

Lemma no_LF_literals (ls : list text) :
  forallb (forallb (fun c => negb (c =? LF))) ls = true ->
  Forall (Forall (fun c => c <> LF)) ls.
Proof.
  rewrite forallb_forall, Forall_forall. intros H l Hl.
  by apply no_LF_literal, H, list_elem_of_In.
Qed.

Lemma re_sub_Forall (P : N -> Prop) s :
  P 36 -> P 123 -> P 125 -> Forall P s -> Forall P (re_sub s).
Proof.
  intros H36 H123 H125. remember (length s) as n eqn:Hn. revert s Hn.
  induction n as [n IH] using lt_wf_ind. intros [|c s] Hn Hs.
  - by rewrite re_sub_equation_1.
  - rewrite re_sub_cons. destruct (match_gref (c :: s)) as [m|] eqn:Hm.
    + destruct (match_gref_Some _ _ Hm) as (E & _ & _).
      rewrite E in Hs. apply Forall_app in Hs as [_ Hs].
      apply Forall_app in Hs as [H1 H2]. apply Forall_cons in H2 as [_ H2].
      repeat (apply Forall_app; split); try by repeat constructor.
      apply (IH (length m.2)); [|done|done].
      rewrite Hn, E. simpl. rewrite length_app. simpl. lia.
    + apply Forall_cons in Hs as [Hc Hs]. constructor; [done|].
      apply (IH (length s)); [simpl in Hn; lia|done|done].
Qed.

Lemma perl_line_no_LF x :
  Forall (fun c => c <> LF) x ->
  Forall (fun c => c <> LF) (perl_line (perl_op x)).
Proof.
  intros Hx. unfold perl_line, perl_op.
  repeat (apply Forall_app; split); try (by apply no_LF_literal).
  by apply re_sub_Forall.
Qed.

Lemma script_lines_no_LF regex_list files_list :
  Forall (Forall (fun c => c <> LF)) regex_list ->
  Forall (Forall (fun c => c <> LF)) files_list ->
  Forall (Forall (fun c => c <> LF)) (script_lines regex_list files_list).
Proof.
  intros Hr Hf. unfold script_lines.
  change (mid_lines (str_of_nat (length files_list)))
    with (take 8 (mid_lines []) ++
          [applying_pre ++ str_of_nat (length files_list) ++ applying_post] ++
          drop 9 (mid_lines [])).
  repeat (apply Forall_app; split); try (by apply no_LF_literals).
  - destruct files_list; [by repeat constructor|done].
  - apply Forall_singleton.
    repeat (apply Forall_app; split); try (by apply no_LF_literal).
    eapply Forall_impl; [apply str_of_nat_digits|].
    intros c Hc ->. unfold LF in Hc. lia.
  - unfold perl_replace_list. rewrite <- list_fmap_compose.
    destruct regex_list as [|x xs]; [by repeat constructor|].
    change (block ?l) with l. apply Forall_fmap.
    eapply Forall_impl; [exact Hr|]. intros y Hy. by apply perl_line_no_LF.
Qed.

(** The lines of the written text are those of [script_lines]. *)
Lemma split_lf_script regex_list files_list :
  Forall (Forall (fun c => c <> LF)) regex_list ->
  Forall (Forall (fun c => c <> LF)) files_list ->
  split_lf (join [LF] (script_lines regex_list files_list)) =
  script_lines regex_list files_list.
Proof.
  intros Hr Hf. apply split_lf_join; [done|]. by apply script_lines_no_LF.
Qed.

Lemma read_lines_no_LF content :
  Forall (Forall (fun c => c <> LF)) (filter_len (splitlines content)).
Proof.
  apply filter_len_sub.
  eapply Forall_impl; [apply splitlines_no_linebreak|].
  intros l. apply not_linebreak_not_LF.
Qed.

(** ** Running the generator *)

(** The text written for the contents of the two lists. *)
Lemma generated_script_eq regex_list files_list :
  formatted (script_text regex_list files_list) =
  ret (join [LF] (script_lines regex_list files_list)).
Proof. by rewrite script_text_lines. Qed.

Lemma bind_run {A B} (m : io A) (k : A -> io B) σ :
  bind m k σ =
  match m σ with
  | (Returned a, σ') => k a σ'
  | (Raised e, σ') => (Raised e, σ')
  end.
Proof. reflexivity. Qed.

Lemma path_exists_Some p (σ : fs) n :
  σ !! p = Some n -> path_exists p σ = (Returned true, σ).
Proof.
  intros E. unfold path_exists. by rewrite E, bool_decide_eq_true_2.
Qed.

Lemma path_exists_None p (σ : fs) :
  σ !! p = None -> path_exists p σ = (Returned false, σ).
Proof.
  intros E. unfold path_exists. rewrite E, bool_decide_eq_false_2; [done|].
  by intros [? ?].
Qed.

Lemma read_text_run p (σ : fs) :
  read_text p σ =
  match σ !! p with
  | Some (TextFile content) => (Returned (universal_newlines content), σ)
  | Some (RawFile _) => (Raised (UnicodeDecodeError p), σ)
  | Some Directory => (Raised (IsADirectoryError p), σ)
  | None => (Raised (FileNotFoundError p), σ)
  end.
Proof. reflexivity. Qed.

(** Every run, case by case: the three checks in their order, then the two
    reads, then the open and the write, which are the device's to fail. *)
Lemma run_cases (σ : fs) regex_path files_path output_path :
  make_domain_substitution_script regex_path files_path output_path σ =
  match σ !! regex_path, σ !! files_path, σ !! output_path with
  | None, _, _ => (Raised (FileNotFoundError regex_path), σ)
  | Some _, None, _ => (Raised (FileNotFoundError files_path), σ)
  | Some _, Some _, Some _ => (Raised (FileExistsError output_path), σ)
  | Some (TextFile cr), Some (TextFile cf), None =>
      written dev σ output_path (generated cr cf)
  | Some (RawFile _), Some _, None =>
      (Raised (UnicodeDecodeError regex_path), σ)
  | Some Directory, Some _, None =>
      (Raised (IsADirectoryError regex_path), σ)
  | Some (TextFile _), Some (RawFile _), None =>
      (Raised (UnicodeDecodeError files_path), σ)
  | Some (TextFile _), Some Directory, None =>
      (Raised (IsADirectoryError files_path), σ)
  end.
Proof.
  unfold make_domain_substitution_script. rewrite bind_run.
  destruct (σ !! regex_path) as [nr|] eqn:Er.
  2: { by rewrite (path_exists_None _ _ Er). }
  rewrite (path_exists_Some _ _ _ Er). cbn [negb]. rewrite bind_run.
  destruct (σ !! files_path) as [nf|] eqn:Ef.
  2: { rewrite (path_exists_None _ _ Ef). by destruct nr. }
  rewrite (path_exists_Some _ _ _ Ef). cbn [negb]. rewrite bind_run.
  destruct (σ !! output_path) as [no|] eqn:Eo.
  { rewrite (path_exists_Some _ _ _ Eo). by destruct nr, nf. }
  rewrite (path_exists_None _ _ Eo).
  rewrite bind_run, read_text_run, Er.
  destruct nr as [cr| |]; [|by destruct nf..].
  rewrite bind_run, read_text_run, Ef.
  destruct nf as [cf| |]; [|done..].
  rewrite !splitlines_universal_newlines.
  rewrite bind_run. unfold open_w, written. rewrite Eo.
  destruct (open_error dev σ output_path) as [e|]; [done|].
  rewrite bind_run, generated_script_eq. unfold ret, write.
  rewrite lookup_insert_eq, app_nil_l.
  destruct (write_error dev _ output_path _) as [[rest e]|];
    by rewrite insert_insert_eq.
Qed.

(** A run on two readable lists and a free output path writes the script,
    if the device lets it. *)
Lemma run_success (σ : fs) regex_path files_path output_path cr cf :
  σ !! regex_path = Some (TextFile cr) ->
  σ !! files_path = Some (TextFile cf) ->
  σ !! output_path = None ->
  writes_well dev σ output_path (generated cr cf) ->
  make_domain_substitution_script regex_path files_path output_path σ =
  (Returned tt, <[output_path := TextFile (generated cr cf)]> σ).
Proof.
  intros Er Ef Eo [Ho Hw]. rewrite run_cases, Er, Ef, Eo.
  unfold written. by rewrite Ho, Hw.
Qed.

Lemma split_lf_generated cr cf :
  split_lf (generated cr cf) =
  script_lines (filter_len (splitlines cr)) (filter_len (splitlines cf)).
Proof. apply split_lf_script; apply read_lines_no_LF. Qed.

Lemma filter_len_filter (ls : list text) :
  filter_len ls = filter (fun l => l <> []) ls.
Proof.
  unfold filter_len. induction ls as [|l ls IH]; [done|].
  cbn [List.filter]. rewrite filter_cons, IH. by destruct l.
Qed.

Lemma lines_after_app mark pre rest :
  mark ∉ pre -> lines_after mark (pre ++ mark :: rest) = rest.
Proof.
  induction pre as [|l pre IH]; intros Hn; simpl.
  - by rewrite bool_decide_eq_true_2.
  - apply not_elem_of_cons in Hn as [Hl Hn].
    rewrite bool_decide_eq_false_2 by done. by apply IH.
Qed.

Lemma lines_until_app mark pre rest :
  mark ∉ pre -> lines_until mark (pre ++ mark :: rest) = pre.
Proof.
  induction pre as [|l pre IH]; intros Hn; simpl.
  - by rewrite bool_decide_eq_true_2.
  - apply not_elem_of_cons in Hn as [Hl Hn].
    rewrite bool_decide_eq_false_2 by done. f_equal. by apply IH.
Qed.

(** What [print_file_list] prints is the file list, as long as no entry is
    the line that ends the here-document. *)
Lemma print_file_list_generated cr cf :
  U "__END__" ∉ filter_len (splitlines cf) ->
  print_file_list (generated cr cf) = block (filter_len (splitlines cf)).
Proof.
  intros Hn. unfold print_file_list. rewrite split_lf_generated.
  unfold script_lines.
  change head_lines with (take 13 head_lines ++ [[9] ++ U "cat <<'__END__'"]).
  rewrite <- app_assoc. change ([?x] ++ ?l) with (x :: l).
  rewrite lines_after_app
    by (apply (bool_decide_unpack _); vm_compute; exact I).
  change (mid_lines ?c ++ ?l) with (U "__END__" :: (drop 1 (mid_lines c) ++ l)).
  rewrite lines_until_app; [done|].
  destruct (filter_len (splitlines cf)); [|done].
  apply (bool_decide_unpack _). vm_compute. exact I.
Qed.

Lemma script_lines_entry regex_list files_list i x :
  files_list !! i = Some x ->
  script_lines regex_list files_list !! (14 + i)%nat = Some x.
Proof.
  intros Hi. unfold script_lines.
  rewrite lookup_app_r by (change (length head_lines) with 14%nat; lia).
  change (length head_lines) with 14%nat.
  replace (14 + i - 14)%nat with i by lia.
  destruct files_list as [|y ys]; [done|]. cbn [block].
  by rewrite lookup_app_l by (by apply lookup_lt_Some in Hi).
Qed.

Lemma script_lines_statement regex_list files_list i x :
  regex_list !! i = Some x ->
  script_lines regex_list files_list
    !! (14 + length (block files_list) + 11 + i)%nat =
  Some (perl_line (perl_op x)).
Proof.
  intros Hi. unfold script_lines.
  rewrite lookup_app_r by (change (length head_lines) with 14%nat; lia).
  rewrite lookup_app_r by (change (length head_lines) with 14%nat; lia).
  rewrite lookup_app_r
    by (change (length head_lines) with 14%nat;
        change (length (mid_lines ?c)) with 11%nat; lia).
  change (length head_lines) with 14%nat.
  change (length (mid_lines ?c)) with 11%nat.
  replace (14 + length (block files_list) + 11 + i - 14
           - length (block files_list) - 11)%nat with i by lia.
  destruct regex_list as [|y ys]; [done|].
  unfold perl_replace_list. cbn [block map].
  change (?a :: map ?f (map ?g ?l)) with (map f (map g (y :: ys))).
  rewrite lookup_app_l.
  - change (map ?f ?l) with (f <$> l). by rewrite !list_lookup_fmap, Hi.
  - rewrite !length_map. by apply lookup_lt_Some in Hi.
Qed.

Lemma has_gref_perl_line x : has_gref (perl_line (perl_op x)) = false.
Proof.
  unfold perl_line, perl_op. rewrite <- !app_assoc.
  change (U "    " ++ U "s#" ++ re_sub x ++ U "#g" ++ U ";")
    with (U "    s#" ++ (re_sub x ++ 35 :: U "g;")).
  rewrite has_gref_skip by (by repeat constructor).
  rewrite has_gref_app_stop by done.
  by rewrite has_gref_re_sub.
Qed.

Lemma splitlines_single l :
  l <> [] -> Forall (fun c => is_linebreak c = false) l -> splitlines l = [l].
Proof.
  intros Hne Hl. induction Hl as [|c l Hc Hl IH]; [done|].
  rewrite splitlines_cons, Hc. destruct l as [|c1 l]; [done|].
  by rewrite IH.
Qed.

(** In the text of the script the entries stand as they are and in their
    order between the line that opens the here-document and the line
    [__END__] of the template, whatever the entries are. *)
Lemma file_list_in_text cr cf :
  let entries := filter_len (splitlines cf) in
  split_lf (generated cr cf) =
    take 13 head_lines ++ [[9] ++ U "cat <<'__END__'"] ++
    block entries ++ [U "__END__"] ++
    drop 1 (mid_lines (str_of_nat (length entries))) ++
    block (map perl_line (perl_replace_list (filter_len (splitlines cr)))) ++
    tail_lines.
Proof.
  intros entries. rewrite split_lf_generated. unfold script_lines.
  change head_lines with (take 13 head_lines ++ [[9] ++ U "cat <<'__END__'"]).
  rewrite <- app_assoc.
  change (mid_lines ?c ++ ?l)
    with ([U "__END__"] ++ (drop 1 (mid_lines c) ++ l)).
  reflexivity.
Qed.

(** ** Lines and line boundaries *)

Lemma split_breaks_cons c s :
  split_breaks (c :: s) =
  if is_linebreak c then [] :: split_breaks s
  else match split_breaks s with
       | l :: ls => (c :: l) :: ls
       | [] => [[c]]
       end.
Proof. reflexivity. Qed.

Lemma split_lf_cons c s :
  split_lf (c :: s) =
  if c =? LF then [] :: split_lf s
  else match split_lf s with
       | l :: ls => (c :: l) :: ls
       | [] => [[c]]
       end.
Proof. reflexivity. Qed.

Lemma filter_len_nil_cons (ls : list text) : filter_len ([] :: ls) = filter_len ls.
Proof. reflexivity. Qed.

(** [splitlines] and [split_breaks] open with the same line and go on with
    the same non-empty lines. *)
Lemma splitlines_split_breaks s :
  s = [] \/
  exists l ls ls',
    splitlines s = l :: ls /\ split_breaks s = l :: ls' /\
    filter_len ls = filter_len ls'.
Proof.
  induction s as [| c | c c' s IH1 IH2] using text_ind2.
  - by left.
  - right. rewrite splitlines_cons, split_breaks_cons.
    destruct (is_linebreak c).
    + by exists [], [], [[]].
    + by exists [c], [], [].
  - right. destruct IH2 as [?|(l2 & ls2 & ls2' & E2 & B2 & F2)]; [done|].
    rewrite splitlines_cons, (split_breaks_cons c).
    destruct (is_linebreak c).
    + destruct ((c =? CR) && (c' =? LF)) eqn:Hm.
      * apply andb_prop in Hm as [_ Hc']. apply N.eqb_eq in Hc'. subst c'.
        exists [], (splitlines s), (split_breaks (LF :: s)).
        split; [done|]. split; [done|].
        rewrite split_breaks_cons. change (is_linebreak LF) with true.
        cbv iota. rewrite filter_len_nil_cons.
        destruct IH1 as [->|(l1 & ls1 & ls1' & E1 & B1 & F1)]; [done|].
        rewrite E1, B1. unfold filter_len in *. simpl. by rewrite F1.
      * exists [], (splitlines (c' :: s)), (split_breaks (c' :: s)).
        split; [done|]. split; [done|].
        rewrite E2, B2. unfold filter_len in *. simpl. by rewrite F2.
    + rewrite E2, B2. by exists (c :: l2), ls2, ls2'.
Qed.

Lemma split_breaks_nonempty s : split_breaks s <> [].
Proof.
  destruct s as [|c s]; [done|]. rewrite split_breaks_cons.
  destruct (is_linebreak c); [done|]. by destruct (split_breaks s).
Qed.

Lemma split_breaks_app a c b :
  is_linebreak c = true ->
  split_breaks (a ++ c :: b) = split_breaks a ++ split_breaks b.
Proof.
  intros Hc. induction a as [|x a IH].
  - rewrite app_nil_l, split_breaks_cons, Hc. done.
  - change ((x :: a) ++ c :: b) with (x :: (a ++ c :: b)).
    rewrite !split_breaks_cons, IH.
    destruct (is_linebreak x); [done|].
    pose proof (split_breaks_nonempty a).
    by destruct (split_breaks a).
Qed.

Lemma filter_len_split_breaks s :
  filter_len (splitlines s) = filter_len (split_breaks s).
Proof.
  destruct (splitlines_split_breaks s) as [->|(l & ls & ls' & E & B & F)].
  - reflexivity.
  - rewrite E, B. unfold filter_len in *. simpl. by rewrite F.
Qed.

Lemma split_breaks_line l :
  Forall (fun c => is_linebreak c = false) l -> split_breaks l = [l].
Proof.
  intros Hl. induction Hl as [|c l Hc Hl IH]; [done|].
  by rewrite split_breaks_cons, Hc, IH.
Qed.

(** With LF as the only line boundary in a text, cutting at the boundaries
    is cutting at the LFs. *)
Lemma split_breaks_only_LF s : only_LF s = true -> split_breaks s = split_lf s.
Proof.
  induction s as [|c s IH]; [done|]. intros H.
  unfold only_LF in H. cbn [forallb] in H. apply andb_prop in H as [Hc Hs].
  rewrite split_breaks_cons, split_lf_cons, (IH Hs).
  destruct (c =? LF) eqn:E.
  - apply N.eqb_eq in E. by subst c.
  - rewrite orb_false_r in Hc. apply negb_true_iff in Hc. by rewrite Hc.
Qed.

Lemma only_LF_cons_LF s : only_LF (LF :: s) = only_LF s.
Proof. reflexivity. Qed.

(** A newline-delimited text arrives from [read_text] with LF as its only
    line boundary. *)
Lemma universal_newlines_only_LF s :
  newline_delimited s = true -> only_LF (universal_newlines s) = true.
Proof.
  induction s as [| c | c c' s IH1 IH2] using text_ind2; intros H.
  - done.
  - unfold newline_delimited in H. cbn [forallb] in H.
    rewrite andb_true_r in H.
    rewrite universal_newlines_cons. destruct (c =? CR) eqn:E; [done|].
    rewrite orb_false_r in H.
    unfold only_LF. cbn [universal_newlines forallb]. by rewrite H.
  - assert (Hc : negb (is_linebreak c) || (c =? LF) || (c =? CR) = true /\
                 newline_delimited (c' :: s) = true).
    { unfold newline_delimited in *. cbn [forallb] in H.
      by apply andb_prop in H. }
    destruct Hc as [Hc Hs'].
    assert (Hs : newline_delimited s = true).
    { unfold newline_delimited in *. cbn [forallb] in Hs'.
      by apply andb_prop in Hs' as [_ ?]. }
    rewrite universal_newlines_cons. destruct (c =? CR) eqn:E.
    + rewrite only_LF_cons_LF. destruct (c' =? LF); auto.
    + rewrite orb_false_r in Hc.
      unfold only_LF. cbn [forallb]. rewrite Hc.
      by apply IH2.
Qed.

(** The entries the code reads from a newline-delimited list are the
    non-empty lines of the list. *)
Lemma filter_len_newline_delimited s :
  newline_delimited s = true ->
  filter_len (splitlines s) =
  filter (fun l => l <> []) (split_lf (universal_newlines s)).
Proof.
  intros H. rewrite <- (splitlines_universal_newlines s).
  rewrite filter_len_split_breaks.
  rewrite split_breaks_only_LF by (by apply universal_newlines_only_LF).
  apply filter_len_filter.
Qed.

(** A non-empty run of characters with no line boundary in it, between two
    boundaries or the ends of the text, is an entry. *)
Lemma entry_between front l rest :
  l <> [] -> Forall (fun c => is_linebreak c = false) l ->
  front = [] \/ (exists c, last front = Some c /\ is_linebreak c = true) ->
  rest = [] \/ (exists c, head rest = Some c /\ is_linebreak c = true) ->
  l ∈ filter_len (splitlines (front ++ l ++ rest)).
Proof.
  intros Hne Hl Hf Hr. rewrite filter_len_split_breaks.
  assert (H1 : l ∈ filter_len (split_breaks (l ++ rest))).
  { apply filter_len_In. split; [|done].
    destruct Hr as [->|(c & Hc & Hb)].
    - rewrite app_nil_r, split_breaks_line by done. apply list_elem_of_here.
    - destruct rest as [|c' rest]; [done|]. injection Hc as ->.
      rewrite split_breaks_app, split_breaks_line by done.
      apply list_elem_of_here. }
  destruct Hf as [->|(c & Hc & Hb)]; [done|].
  apply last_Some in Hc as [front' ->]. rewrite <- app_assoc.
  change ([c] ++ ?x) with (c :: x).
  rewrite split_breaks_app by done.
  unfold filter_len in *. rewrite List.filter_app.
  apply elem_of_app. by right.
Qed.

Lemma first_line_spec s :
  exists rest,
    s = first_line s ++ rest /\
    Forall (fun c => is_linebreak c = false) (first_line s) /\
    (rest = [] \/ exists c, head rest = Some c /\ is_linebreak c = true).
Proof.
  induction s as [|c s (rest & E & F & R)].
  - exists []. split; [done|]. split; [constructor|by left].
  - cbn [first_line]. destruct (is_linebreak c) eqn:Hc.
    + exists (c :: s). split; [done|]. split; [constructor|].
      right. by exists c.
    + exists rest. split; [|split; [by constructor|done]].
      change ((c :: first_line s) ++ rest) with (c :: (first_line s ++ rest)).
      by f_equal.
Qed.

Lemma last_line_spec s :
  exists front,
    s = front ++ last_line s /\
    Forall (fun c => is_linebreak c = false) (last_line s) /\
    (front = [] \/ exists c, last front = Some c /\ is_linebreak c = true).
Proof.
  destruct (first_line_spec (rev s)) as (rest & E & F & R).
  exists (rev rest). unfold last_line. split; [|split].
  - rewrite <- rev_app_distr, <- E. by rewrite rev_involutive.
  - by apply Forall_rev.
  - destruct R as [->|(c & Hc & Hb)]; [by left|right].
    destruct rest as [|c' rest]; [done|]. injection Hc as ->.
    exists c. split; [|done]. cbn [rev]. apply last_snoc.
Qed.

(** ** The runs that reach the device *)

(** A run on two readable lists and a free output path hands the script to
    the device, whatever the device then does. *)
Lemma run_written (σ : fs) regex_path files_path output_path cr cf :
  σ !! regex_path = Some (TextFile cr) ->
  σ !! files_path = Some (TextFile cf) ->
  σ !! output_path = None ->
  make_domain_substitution_script regex_path files_path output_path σ =
  written dev σ output_path (generated cr cf).
Proof. intros Er Ef Eo. by rewrite run_cases, Er, Ef, Eo. Qed.

(** The first steps of the proofs about the script that a run writes. *)
Ltac the_script cr cf :=
  exists (generated cr cf);
  split; [by apply run_written|];
  split; [by apply run_success|].

(** ** The specification *)




(** C8. Two runs on lists of the same contents, each with a free output
    path, hand the same text to the device, whatever else the two file
    systems hold and whatever the paths are called; so both return and
    write the same text, where the device lets them write. *)
Theorem deterministic (σ1 σ2 : fs) r1 f1 o1 r2 f2 o2 cr cf :
  σ1 !! r1 = Some (TextFile cr) -> σ2 !! r2 = Some (TextFile cr) ->
  σ1 !! f1 = Some (TextFile cf) -> σ2 !! f2 = Some (TextFile cf) ->
  σ1 !! o1 = None -> σ2 !! o2 = None ->
  exists s,
    (make_domain_substitution_script r1 f1 o1 σ1 = written dev σ1 o1 s /\
     make_domain_substitution_script r2 f2 o2 σ2 = written dev σ2 o2 s) /\
    (writes_well dev σ1 o1 s -> writes_well dev σ2 o2 s ->
     make_domain_substitution_script r1 f1 o1 σ1 =
       (Returned tt, <[o1 := TextFile s]> σ1) /\
     make_domain_substitution_script r2 f2 o2 σ2 =
       (Returned tt, <[o2 := TextFile s]> σ2)).
Proof.
  intros Hr1 Hr2 Hf1 Hf2 Ho1 Ho2. exists (generated cr cf).
  split; [split; by apply run_written|].
  intros Hw1 Hw2. split; by apply run_success.
Qed.

(** C3, as amended. For a rules list that is newline-delimited and no
    more, the lines of the script are those of the template with, between
    the line that opens the Perl program and the line that closes it, one
    statement for each non-empty line of the rules list, in the order of
    the list: as many statements as the list has non-empty lines, each a
    line of its own that ends in a semicolon. The run hands that script to
    the device and returns with it written, where the device lets it. *)
Theorem one_statement_per_rule (σ : fs) regex_path files_path output_path cr cf :
  σ !! regex_path = Some (TextFile cr) ->
  σ !! files_path = Some (TextFile cf) ->
  σ !! output_path = None ->
  newline_delimited cr = true ->
  let rules := filter (fun l => l <> []) (split_lf (universal_newlines cr)) in
  let statements := map (fun r => perl_line (perl_op r)) rules in
  exists script,
    make_domain_substitution_script regex_path files_path output_path σ =
      written dev σ output_path script /\
    (writes_well dev σ output_path script ->
     make_domain_substitution_script regex_path files_path output_path σ =
       (Returned tt, <[output_path := TextFile script]> σ)) /\
    split_lf script =
      head_lines ++ block (filter_len (splitlines cf)) ++
      mid_lines (str_of_nat (length (filter_len (splitlines cf)))) ++
      block statements ++ tail_lines /\
    length statements = length rules /\
    (forall i r, rules !! i = Some r ->
       statements !! i = Some (U "    " ++ perl_op r ++ U ";")) /\
    Forall (fun st => (LF ∉ st) /\ (exists body, st = body ++ U ";"))
      statements.
Proof.
  intros Er Ef Eo Hnl rules statements. the_script cr cf.
  subst rules statements. rewrite <- (filter_len_newline_delimited cr Hnl).
  split; [|split; [|split]].
  - rewrite split_lf_generated. unfold script_lines, perl_replace_list.
    by rewrite <- list_fmap_compose.
  - by rewrite length_map.
  - intros i r Hi.
    change (map ?f ?l) with (f <$> l). by rewrite list_lookup_fmap, Hi.
  - apply Forall_forall. intros st Hst.
    change (map ?f ?l) with (f <$> l) in Hst.
    apply list_elem_of_fmap in Hst as (r & -> & Hr). split.
    + intros HLF.
      assert (Hno : Forall (fun c => c <> LF) (perl_line (perl_op r))).
      { apply perl_line_no_LF.
        pose proof (read_lines_no_LF cr) as Hall.
        rewrite Forall_forall in Hall. by apply Hall. }
      rewrite Forall_forall in Hno. by apply (Hno LF).
    + by exists (U "    " ++ perl_op r).
Qed.

(** C4. A rules list that holds [\g<N>], for a row of digits [N], gives a
    script with a statement that holds [${N}] in its place: the statement
    for the rule around the placeholder, which begins behind the last line
    boundary before it and ends at the first behind it, with the text on
    both sides rewritten by itself; and that statement has no [\g<n>] left
    in it, for any row of digits [n]. The run hands that script to the
    device and returns with it written, where the device lets it. *)
Theorem group_reference_translation
    (σ : fs) regex_path files_path output_path cr cf before ds after :
  σ !! regex_path = Some (TextFile cr) ->
  σ !! files_path = Some (TextFile cf) ->
  σ !! output_path = None ->
  cr = before ++ U "\g<" ++ ds ++ U ">" ++ after ->
  ds <> [] -> forallb is_digit ds = true ->
  Forall (fun c => is_linebreak c = false) ds ->
  let pre := last_line before in
  let post := first_line after in
  let statement :=
    U "    s#" ++ re_sub pre ++ U "${" ++ ds ++ U "}" ++ re_sub post ++ U "#g;" in
  exists script i,
    make_domain_substitution_script regex_path files_path output_path σ =
      written dev σ output_path script /\
    (writes_well dev σ output_path script ->
     make_domain_substitution_script regex_path files_path output_path σ =
       (Returned tt, <[output_path := TextFile script]> σ)) /\
    split_lf script
      !! (14 + length (block (filter_len (splitlines cf))) + 11 + i)%nat =
      Some statement /\
    has_gref statement = false /\
    (forall a n b, n <> [] -> forallb is_digit n = true ->
       statement <> a ++ U "\g<" ++ n ++ U ">" ++ b).
Proof.
  intros Er Ef Eo Hcr Hne Hds Hnb pre post statement.
  destruct (last_line_spec before) as (front & Eb & Fpre & Hfront).
  destruct (first_line_spec after) as (rest & Ea & Fpost & Hrest).
  change (before = front ++ pre) in Eb.
  change (Forall (fun c => is_linebreak c = false) pre) in Fpre.
  change (after = post ++ rest) in Ea.
  change (Forall (fun c => is_linebreak c = false) post) in Fpost.
  clearbody pre post.
  set (rule := pre ++ U "\g<" ++ ds ++ U ">" ++ post).
  assert (Est : perl_line (perl_op rule) = statement).
  { unfold perl_line, perl_op, rule, statement.
    change (pre ++ U "\g<" ++ ds ++ U ">" ++ post)
      with (pre ++ 92 :: ([103; 60] ++ ds ++ 62 :: post)).
    rewrite re_sub_app_stop by done.
    change (92 :: ([103; 60] ++ ds ++ 62 :: post))
      with ([92; 103; 60] ++ ds ++ 62 :: post).
    rewrite re_sub_gref by done.
    by rewrite <- !app_assoc. }
  assert (Hin : rule ∈ filter_len (splitlines cr)).
  { replace cr with (front ++ rule ++ rest).
    - apply entry_between; [by destruct pre| |done|done].
      unfold rule. repeat (apply Forall_app; split); try done;
        by repeat constructor.
    - rewrite Hcr, Eb, Ea. unfold rule. by rewrite <- !app_assoc. }
  apply list_elem_of_lookup in Hin as [i Hi].
  exists (generated cr cf), i.
  split; [by apply run_written|]. split; [by apply run_success|].
  split; [|split].
  - rewrite split_lf_generated, <- Est. by apply script_lines_statement.
  - rewrite <- Est. apply has_gref_perl_line.
  - intros a n b Hn Hnd E.
    pose proof (has_gref_perl_line rule) as Hno.
    rewrite Est, E in Hno.
    change (U "\g<" ++ n ++ U ">" ++ b)
      with ([92; 103; 60] ++ n ++ 62 :: b) in Hno.
    rewrite has_gref_found in Hno; [done|].
    by rewrite match_gref_intro.
Qed.

(** C5, as amended. For a files list that is newline-delimited and no more
    and has no line [__END__], the here-document of [print_file_list] holds
    the non-empty lines of the list, each code point for code point as it
    is in the list and in the order of the list, none dropped, none twice,
    and nothing else but for the one empty line of an empty list: the
    [i]-th entry is the [i]-th line that [print_file_list] prints and line
    [14 + i] of the script. The run hands that script to the device and
    returns with it written, where the device lets it. *)
Theorem file_list_fidelity (σ : fs) regex_path files_path output_path cr cf :
  σ !! regex_path = Some (TextFile cr) ->
  σ !! files_path = Some (TextFile cf) ->
  σ !! output_path = None ->
  newline_delimited cf = true ->
  let entries := filter (fun l => l <> []) (split_lf (universal_newlines cf)) in
  U "__END__" ∉ entries ->
  exists script,
    make_domain_substitution_script regex_path files_path output_path σ =
      written dev σ output_path script /\
    (writes_well dev σ output_path script ->
     make_domain_substitution_script regex_path files_path output_path σ =
       (Returned tt, <[output_path := TextFile script]> σ)) /\
    print_file_list script = block entries /\
    (entries <> [] -> print_file_list script = entries) /\
    (forall i x, entries !! i = Some x ->
       print_file_list script !! i = Some x /\
       split_lf script !! (14 + i)%nat = Some x).
Proof.
  intros Er Ef Eo Hnl entries. subst entries.
  rewrite <- (filter_len_newline_delimited cf Hnl).
  intros Hend. the_script cr cf.
  rewrite print_file_list_generated by done. split; [done|]. split.
  - by destruct (filter_len (splitlines cf)).
  - intros i x Hi. split.
    + destruct (filter_len (splitlines cf)); [done|exact Hi].
    + rewrite split_lf_generated. by apply script_lines_entry.
Qed.

(** C6, as amended. A non-empty line [r] of the rules list that holds no
    line boundary, between two boundaries or the ends of the list, has its
    statement in the Perl program of the script, on a line of its own:
    [s#], the rewritten [r] and [#g], behind the indentation and before the
    semicolon; it is the statement of the entry [r], the [i]-th of the
    script for the [i]-th entry, and in a list that is newline-delimited
    and no more the entries are the non-empty lines of the list. The run
    hands that script to the device and returns with it written, where the
    device lets it. *)
Theorem substitution_wrapping
    (σ : fs) regex_path files_path output_path cr cf pre r post :
  σ !! regex_path = Some (TextFile cr) ->
  σ !! files_path = Some (TextFile cf) ->
  σ !! output_path = None ->
  cr = pre ++ r ++ post ->
  r <> [] -> Forall (fun c => is_linebreak c = false) r ->
  pre = [] \/ (exists c, last pre = Some c /\ is_linebreak c = true) ->
  post = [] \/ (exists c, head post = Some c /\ is_linebreak c = true) ->
  exists script i,
    make_domain_substitution_script regex_path files_path output_path σ =
      written dev σ output_path script /\
    (writes_well dev σ output_path script ->
     make_domain_substitution_script regex_path files_path output_path σ =
       (Returned tt, <[output_path := TextFile script]> σ)) /\
    perl_replace_list (filter_len (splitlines (universal_newlines cr))) !! i =
      Some (U "s#" ++ re_sub r ++ U "#g") /\
    split_lf script
      !! (14 + length (block (filter_len (splitlines cf))) + 11 + i)%nat =
      Some (U "    " ++ (U "s#" ++ re_sub r ++ U "#g") ++ U ";") /\
    (newline_delimited cr = true ->
     filter (fun l => l <> []) (split_lf (universal_newlines cr)) !! i =
       Some r).
Proof.
  intros Er Ef Eo -> Hne Hr Hpre Hpost.
  pose proof (entry_between pre r post Hne Hr Hpre Hpost) as Hin.
  apply list_elem_of_lookup in Hin as [i Hi].
  exists (generated (pre ++ r ++ post) cf), i.
  split; [by apply run_written|]. split; [by apply run_success|].
  rewrite splitlines_universal_newlines. split; [|split].
  - unfold perl_replace_list.
    change (map ?f ?l) with (f <$> l). by rewrite list_lookup_fmap, Hi.
  - rewrite split_lf_generated. by apply script_lines_statement.
  - intros Hnl. by rewrite <- (filter_len_newline_delimited _ Hnl).
Qed.

(** C9, as amended. A non-empty line of a list that holds no line
    boundary, a line of spaces and tabs among them, that begins at the
    start of the list or behind a line boundary and ends at the end of the
    list or before a line boundary, is an entry: in the files list it
    stands as it is on a line of the here-document, in the rules list it
    has its statement in the Perl program. The filter drops the empty
    lines and no other. The run hands that script to the device and returns
    with it written, where the device lets it. *)
Theorem whitespace_lines_kept (σ : fs) regex_path files_path output_path cr cf :
  σ !! regex_path = Some (TextFile cr) ->
  σ !! files_path = Some (TextFile cf) ->
  σ !! output_path = None ->
  exists script,
    make_domain_substitution_script regex_path files_path output_path σ =
      written dev σ output_path script /\
    (writes_well dev σ output_path script ->
     make_domain_substitution_script regex_path files_path output_path σ =
       (Returned tt, <[output_path := TextFile script]> σ)) /\
    (forall pre ws post,
       cf = pre ++ ws ++ post ->
       ws <> [] -> Forall (fun c => is_linebreak c = false) ws ->
       pre = [] \/ (exists c, last pre = Some c /\ is_linebreak c = true) ->
       post = [] \/ (exists c, head post = Some c /\ is_linebreak c = true) ->
       exists i,
         (i < length (filter_len (splitlines cf)))%nat /\
         split_lf script !! (14 + i)%nat = Some ws) /\
    (forall pre ws post,
       cr = pre ++ ws ++ post ->
       ws <> [] -> Forall (fun c => is_linebreak c = false) ws ->
       pre = [] \/ (exists c, last pre = Some c /\ is_linebreak c = true) ->
       post = [] \/ (exists c, head post = Some c /\ is_linebreak c = true) ->
       exists i,
         (i < length (filter_len (splitlines cr)))%nat /\
         split_lf script
           !! (14 + length (block (filter_len (splitlines cf))) + 11 + i)%nat =
         Some (U "    s#" ++ re_sub ws ++ U "#g;")) /\
    (forall ls : list text, filter_len ls = filter (fun l => l <> []) ls).
Proof.
  intros Er Ef Eo. the_script cr cf.
  split; [|split; [|apply filter_len_filter]].
  - intros pre ws post -> Hne Hws Hpre Hpost.
    pose proof (entry_between pre ws post Hne Hws Hpre Hpost) as Hin.
    apply list_elem_of_lookup in Hin as [i Hi]. exists i.
    split; [by apply lookup_lt_Some in Hi|].
    rewrite split_lf_generated. by apply script_lines_entry.
  - intros pre ws post -> Hne Hws Hpre Hpost.
    pose proof (entry_between pre ws post Hne Hws Hpre Hpost) as Hin.
    apply list_elem_of_lookup in Hin as [i Hi]. exists i.
    split; [by apply lookup_lt_Some in Hi|].
    rewrite split_lf_generated, (script_lines_statement _ _ _ _ Hi).
    unfold perl_line, perl_op. by rewrite <- !app_assoc.
Qed.

(** C10. When the files list has no non-empty line, the script has one
    empty line between the line that opens the here-document and the line
    [__END__], so that [print_file_list] prints one empty line, and the
    progress message gives the number of files as 0. The run hands that
    script to the device and returns with it written, where the device lets
    it. *)
Theorem empty_files_list (σ : fs) regex_path files_path output_path cr cf :
  σ !! regex_path = Some (TextFile cr) ->
  σ !! files_path = Some (TextFile cf) ->
  σ !! output_path = None ->
  filter (fun l => l <> []) (splitlines cf) = [] ->
  exists script,
    make_domain_substitution_script regex_path files_path output_path σ =
      written dev σ output_path script /\
    (writes_well dev σ output_path script ->
     make_domain_substitution_script regex_path files_path output_path σ =
       (Returned tt, <[output_path := TextFile script]> σ)) /\
    split_lf script =
      take 13 head_lines ++
      [[9] ++ U "cat <<'__END__'"; []; U "__END__"] ++
      drop 1 (mid_lines (U "0")) ++
      block (map perl_line (perl_replace_list (filter_len (splitlines cr)))) ++
      tail_lines /\
    print_file_list script = [[]] /\
    applying_pre ++ U "0" ++ applying_post ∈ drop 1 (mid_lines (U "0")).
Proof.
  intros Er Ef Eo Hnone. rewrite <- filter_len_filter in Hnone.
  the_script cr cf. split; [|split].
  - rewrite split_lf_generated, Hnone. unfold script_lines.
    change head_lines with (take 13 head_lines ++ [[9] ++ U "cat <<'__END__'"]).
    rewrite <- app_assoc.
    change (block [] ++ mid_lines ?c ++ ?l)
      with ([[]; U "__END__"] ++ (drop 1 (mid_lines c) ++ l)).
    reflexivity.
  - rewrite print_file_list_generated; rewrite Hnone; [done|].
    apply not_elem_of_nil.
  - apply list_elem_of_In. unfold mid_lines. simpl. tauto.
Qed.

(** ** Further properties: reading the lists *)

(** X1. The entries read from a list are the non-empty runs of characters
    between its line boundaries: that CR LF counts as one boundary, as
    [splitlines] has it, and that reading turns CR LF and CR into LF make
    no difference to them. *)
Theorem entries_are_runs s :
  filter_len (splitlines (universal_newlines s)) = filter_len (split_breaks s).
Proof.
  rewrite splitlines_universal_newlines. apply filter_len_split_breaks.
Qed.

(** X3. Two lists put one behind the other with a line boundary between
    them give the entries of the first followed by those of the second; so
    a boundary at the end of a list adds nothing. *)
Theorem entries_of_concatenation a c b :
  is_linebreak c = true ->
  filter_len (splitlines (a ++ c :: b)) =
    filter_len (splitlines a) ++ filter_len (splitlines b) /\
  filter_len (splitlines (a ++ [c])) = filter_len (splitlines a).
Proof.
  intros Hc. rewrite !filter_len_split_breaks, !split_breaks_app by done.
  unfold filter_len. rewrite !List.filter_app. split; [done|].
  simpl. by rewrite app_nil_r.
Qed.

(** X5. Every entry read from a list is non-empty and holds no line
    boundary. *)
Theorem entries_invariant s :
  Forall (fun l => l <> [] /\ Forall (fun c => is_linebreak c = false) l)
    (filter_len (splitlines s)).
Proof.
  apply Forall_forall. intros l Hl. apply filter_len_In in Hl as [Hl Hne].
  split; [done|].
  pose proof (splitlines_no_linebreak s) as H.
  rewrite Forall_forall in H. by apply H.
Qed.

(** X4. Entries written one to a line, as line 41 writes them, and read
    again as lines 35 and 36 read a list, are the entries that were
    written. *)
Theorem entries_round_trip (ls : list text) :
  Forall (fun l => l <> [] /\ Forall (fun c => is_linebreak c = false) l) ls ->
  filter_len (splitlines (universal_newlines (join [LF] ls))) = ls.
Proof.
  intros Hls. rewrite splitlines_universal_newlines.
  induction Hls as [|l ls [Hne Hl] Hls IH]; [done|].
  destruct ls as [|l' ls].
  - cbn [join]. rewrite splitlines_single by done. by destruct l.
  - rewrite join_cons by done. change ([LF] ++ ?x) with (LF :: x).
    rewrite splitlines_line by done.
    change (filter_len (l :: ?x)) with
      (if len_truthy l then l :: filter_len x else filter_len x).
    rewrite IH. by destruct l.
Qed.

(** ** Further properties: the rewrite of the rules *)

Lemma has_gref_cons c s :
  has_gref (c :: s) = bool_decide (is_Some (match_gref (c :: s))) || has_gref s.
Proof. reflexivity. Qed.

Lemma re_sub_without_gref s : has_gref s = false -> re_sub s = s.
Proof.
  induction s as [|c s IH]; intros H.
  - by rewrite re_sub_equation_1.
  - rewrite has_gref_cons in H. apply orb_false_elim in H as [Hm Hs].
    rewrite re_sub_cons.
    destruct (match_gref (c :: s)) as [m|].
    + by rewrite bool_decide_eq_true_2 in Hm.
    + by rewrite IH.
Qed.

(** [has_gref] finds what it is meant to find: a backslash, [g<], a
    non-empty row of digits and [>]. *)
Lemma has_gref_spec s :
  has_gref s = true <->
  exists pre ds post,
    s = pre ++ U "\g<" ++ ds ++ U ">" ++ post /\
    ds <> [] /\ forallb is_digit ds = true.
Proof.
  split.
  - induction s as [|c s IH]; [done|]. rewrite has_gref_cons.
    intros H. apply orb_prop in H as [H|H].
    + apply bool_decide_eq_true_1 in H as [m Hm].
      destruct (match_gref_Some _ _ Hm) as (E & Hne & Hds).
      by exists [], m.1, m.2.
    + destruct (IH H) as (pre & ds & post & -> & Hne & Hds).
      by exists (c :: pre), ds, post.
  - intros (pre & ds & post & -> & Hne & Hds).
    apply has_gref_found.
    change (U "\g<" ++ ds ++ U ">" ++ post)
      with ([92; 103; 60] ++ ds ++ 62 :: post).
    by rewrite match_gref_intro.
Qed.

(** X6. The rewrite changes a rule exactly when the rule holds a
    placeholder, a backslash followed by [g<], digits and [>]; any other
    rule goes into its statement as it is. *)
Theorem re_sub_unchanged_iff s :
  (re_sub s = s <->
   ~ exists pre ds post,
       s = pre ++ U "\g<" ++ ds ++ U ">" ++ post /\
       ds <> [] /\ forallb is_digit ds = true) /\
  (re_sub s = s -> perl_line (perl_op s) = U "    s#" ++ s ++ U "#g;").
Proof.
  split; [split|].
  - intros E H. apply has_gref_spec in H.
    pose proof (has_gref_re_sub s) as Hno. rewrite E in Hno. congruence.
  - intros H. apply re_sub_without_gref.
    destruct (has_gref s) eqn:E; [|done].
    exfalso. apply H. by apply has_gref_spec.
  - intros E. unfold perl_line, perl_op. rewrite E.
    by rewrite <- !app_assoc.
Qed.

(** X7. Rewriting twice is rewriting once: the result of the rewrite holds
    nothing the rewrite would change. *)
Theorem re_sub_idempotent s : re_sub (re_sub s) = re_sub s.
Proof. apply re_sub_without_gref, has_gref_re_sub. Qed.

(** X8. The two sides of a [#] are rewritten each by itself: the pattern of
    a rule is rewritten like its replacement, and a placeholder on one side
    never runs into the other. *)
Theorem re_sub_splits_at_hash pattern replacement :
  re_sub (pattern ++ U "#" ++ replacement) =
  re_sub pattern ++ U "#" ++ re_sub replacement.
Proof.
  change (pattern ++ U "#" ++ replacement) with (pattern ++ 35 :: replacement).
  rewrite re_sub_app_stop by done. f_equal.
  rewrite re_sub_cons. by rewrite match_gref_first.
Qed.

Lemma count_occ_re_sub c s :
  c ∉ gref_chars ->
  count_occ N.eq_dec (re_sub s) c = count_occ N.eq_dec s c.
Proof.
  intros Hc.
  assert (Hnot : forall x, x ∈ gref_chars -> x <> c) by (by intros x Hx ->).
  assert (H92 := Hnot 92 ltac:(by apply (bool_decide_unpack _))).
  assert (H103 := Hnot 103 ltac:(by apply (bool_decide_unpack _))).
  assert (H60 := Hnot 60 ltac:(by apply (bool_decide_unpack _))).
  assert (H62 := Hnot 62 ltac:(by apply (bool_decide_unpack _))).
  assert (H36 := Hnot 36 ltac:(by apply (bool_decide_unpack _))).
  assert (H123 := Hnot 123 ltac:(by apply (bool_decide_unpack _))).
  assert (H125 := Hnot 125 ltac:(by apply (bool_decide_unpack _))).
  clear Hnot Hc.
  remember (length s) as n eqn:Hn. revert s Hn.
  induction n as [n IH] using lt_wf_ind. intros [|x s] Hn.
  - by rewrite re_sub_equation_1.
  - rewrite re_sub_cons. destruct (match_gref (x :: s)) as [m|] eqn:Hm.
    + destruct (match_gref_Some _ _ Hm) as (E & _ & _). rewrite E.
      rewrite !count_occ_app. cbn [count_occ].
      rewrite (IH (length m.2)); [| |done].
      * repeat (destruct (N.eq_dec _ c); [done|]). lia.
      * rewrite Hn, E. simpl. rewrite length_app. simpl. lia.
    + cbn [count_occ]. rewrite (IH (length s)); [done| |done].
      simpl in Hn. lia.
Qed.

(** X9. The rewrite neither adds nor takes away a character other than
    those of the placeholder and its replacement: a statement has the [#]
    of its rule and the two of the wrapping, the single quotes of its rule
    and no other, whatever the rule is. *)
Theorem delimiters_are_kept c x :
  c ∉ gref_chars ->
  count_occ N.eq_dec (perl_line (perl_op x)) c =
    (count_occ N.eq_dec x c + count_occ N.eq_dec (U "    s##g;") c)%nat /\
  count_occ N.eq_dec (perl_op x) 35 = (count_occ N.eq_dec x 35%N + 2)%nat /\
  count_occ N.eq_dec (perl_line (perl_op x)) 39 = count_occ N.eq_dec x 39.
Proof.
  intros Hc. unfold perl_line, perl_op. rewrite !count_occ_app.
  rewrite (count_occ_re_sub c) by done.
  rewrite !count_occ_re_sub by (by apply (bool_decide_unpack _)).
  change (U "    s##g;") with (U "    " ++ U "s#" ++ U "#g" ++ U ";").
  rewrite !count_occ_app. split; [lia|]. split; [|simpl; lia].
  simpl. lia.
Qed.

(** ** Further properties: the runs of the generator *)

(** X2. Two pairs of lists with the same non-empty runs between line
    boundaries, so lists that differ in their line ends (LF, CR LF, CR), in
    empty lines and in a line break at the end and in nothing else, give
    the same script: the two runs hand the same text to the device, and
    both return with it written, where the device lets them write. *)
Theorem line_ends_do_not_matter (σ1 σ2 : fs) r1 f1 o1 r2 f2 o2 cr1 cf1 cr2 cf2 :
  σ1 !! r1 = Some (TextFile cr1) -> σ1 !! f1 = Some (TextFile cf1) ->
  σ1 !! o1 = None ->
  σ2 !! r2 = Some (TextFile cr2) -> σ2 !! f2 = Some (TextFile cf2) ->
  σ2 !! o2 = None ->
  filter_len (split_breaks cr1) = filter_len (split_breaks cr2) ->
  filter_len (split_breaks cf1) = filter_len (split_breaks cf2) ->
  exists script,
    (make_domain_substitution_script r1 f1 o1 σ1 = written dev σ1 o1 script /\
     make_domain_substitution_script r2 f2 o2 σ2 = written dev σ2 o2 script) /\
    (writes_well dev σ1 o1 script -> writes_well dev σ2 o2 script ->
     make_domain_substitution_script r1 f1 o1 σ1 =
       (Returned tt, <[o1 := TextFile script]> σ1) /\
     make_domain_substitution_script r2 f2 o2 σ2 =
       (Returned tt, <[o2 := TextFile script]> σ2)).
Proof.
  intros Hr1 Hf1 Ho1 Hr2 Hf2 Ho2 Er Ef. exists (generated cr1 cf1).
  assert (E : generated cr2 cf2 = generated cr1 cf1).
  { unfold generated. by rewrite !filter_len_split_breaks, Er, Ef. }
  split.
  - split; [by apply run_written|].
    rewrite <- E. by apply run_written.
  - intros Hw1 Hw2. split; [by apply run_success|].
    rewrite <- E in Hw2 |- *. by apply run_success.
Qed.

(** X10. The [%] of lines 45 to 75 never raises, whatever the lists hold: a
    [%] in an entry or in a rule is text like any other, and the result is
    the lines of the template with the two lists and the number of files
    in their places. *)
Theorem format_never_fails regex_list files_list (σ : fs) :
  script_text regex_list files_list =
    Some (join [LF]
            (head_lines ++ block files_list ++
             mid_lines (str_of_nat (length files_list)) ++
             block (map perl_line (map perl_op regex_list)) ++ tail_lines)) /\
  exists script,
    formatted (script_text regex_list files_list) σ = (Returned script, σ).
Proof.
  rewrite script_text_lines. split; [done|]. by eexists.
Qed.

(** X11. A run returns exactly when the two lists are files that read as
    text, nothing is at the output path, and the device lets the output be
    opened and the script be written. *)
Theorem returns_iff (σ : fs) regex_path files_path output_path :
  (exists σ',
     make_domain_substitution_script regex_path files_path output_path σ =
       (Returned tt, σ')) <->
  (exists cr cf,
     σ !! regex_path = Some (TextFile cr) /\
     σ !! files_path = Some (TextFile cf) /\
     σ !! output_path = None /\
     writes_well dev σ output_path (generated cr cf)).
Proof.
  rewrite run_cases. split.
  - intros [σ' H].
    destruct (σ !! regex_path) as [[cr| |]|]; [| | |done];
      destruct (σ !! files_path) as [[cf| |]|]; try done;
      destruct (σ !! output_path); try done.
    exists cr, cf. split; [done|]. split; [done|]. split; [done|].
    unfold written in H. unfold writes_well.
    destruct (open_error dev σ output_path); [done|].
    by destruct (write_error dev _ output_path _) as [[rest e]|].
  - intros (cr & cf & -> & -> & -> & Ho & Hw). unfold written.
    rewrite Ho, Hw. by eexists.
Qed.

(** X12. A list that is there but cannot be read as text stops the run
    after the three checks and before anything is written: a directory
    raises [IsADirectoryError], a file that does not decode
    [UnicodeDecodeError], the rules list first; the file system is as it
    was. *)
Theorem unreadable_list (σ : fs) regex_path files_path output_path :
  is_Some (σ !! regex_path) -> is_Some (σ !! files_path) ->
  σ !! output_path = None ->
  (σ !! regex_path = Some Directory ->
   make_domain_substitution_script regex_path files_path output_path σ =
     (Raised (IsADirectoryError regex_path), σ)) /\
  ((exists b, σ !! regex_path = Some (RawFile b)) ->
   make_domain_substitution_script regex_path files_path output_path σ =
     (Raised (UnicodeDecodeError regex_path), σ)) /\
  ((exists cr, σ !! regex_path = Some (TextFile cr)) ->
   σ !! files_path = Some Directory ->
   make_domain_substitution_script regex_path files_path output_path σ =
     (Raised (IsADirectoryError files_path), σ)) /\
  ((exists cr, σ !! regex_path = Some (TextFile cr)) ->
   (exists b, σ !! files_path = Some (RawFile b)) ->
   make_domain_substitution_script regex_path files_path output_path σ =
     (Raised (UnicodeDecodeError files_path), σ)).
Proof.
  intros [nr Er] [nf Ef] Eo. rewrite run_cases, Er, Ef, Eo.
  split; [by intros [= ->]|]. split; [by intros [b [= ->]]|].
  split.
  - by intros [cr [= ->]] [= ->].
  - by intros [cr [= ->]] [b [= ->]].
Qed.


(** X14. The same call after a run that returned raises [FileExistsError]
    and leaves the script that the first run wrote. *)
Theorem second_run_raises (σ σ' : fs) regex_path files_path output_path :
  make_domain_substitution_script regex_path files_path output_path σ =
    (Returned tt, σ') ->
  make_domain_substitution_script regex_path files_path output_path σ' =
    (Raised (FileExistsError output_path), σ').
Proof.
  rewrite run_cases. intros H.
  destruct (σ !! regex_path) as [[cr| |]|] eqn:Er; [| | |done];
    destruct (σ !! files_path) as [[cf| |]|] eqn:Ef; try done;
    destruct (σ !! output_path) eqn:Eo; try done.
  unfold written in H.
  destruct (open_error dev σ output_path); [done|].
  destruct (write_error dev _ output_path _) as [[rest e]|]; [done|].
  injection H as <-. rewrite run_cases.
  rewrite lookup_insert_eq.
  rewrite !lookup_insert_ne by (intros ->; congruence).
  by rewrite Er, Ef.
Qed.

(** X15. The number in the progress message is the number of entries: it
    stands on the ninth line behind the here-document, and unless the list
    is empty or holds the line [__END__] it is the number of lines that
    [print_file_list] prints. The run hands that script to the device and
    returns with it written, where the device lets it. *)
Theorem progress_count (σ : fs) regex_path files_path output_path cr cf :
  σ !! regex_path = Some (TextFile cr) ->
  σ !! files_path = Some (TextFile cf) ->
  σ !! output_path = None ->
  let entries := filter_len (splitlines cf) in
  exists script,
    make_domain_substitution_script regex_path files_path output_path σ =
      written dev σ output_path script /\
    (writes_well dev σ output_path script ->
     make_domain_substitution_script regex_path files_path output_path σ =
       (Returned tt, <[output_path := TextFile script]> σ)) /\
    split_lf script !! (14 + length (block entries) + 8)%nat =
      Some (applying_pre ++ str_of_nat (length entries) ++ applying_post) /\
    (entries <> [] -> U "__END__" ∉ entries ->
     length (print_file_list script) = length entries).
Proof.
  intros Er Ef Eo entries. the_script cr cf. split.
  - rewrite split_lf_generated. unfold script_lines. fold entries.
    rewrite lookup_app_r by (change (length head_lines) with 14%nat; lia).
    rewrite lookup_app_r by (change (length head_lines) with 14%nat; lia).
    change (length head_lines) with 14%nat.
    replace (14 + length (block entries) + 8 - 14 - length (block entries))%nat
      with 8%nat by lia.
    reflexivity.
  - intros Hne Hend. rewrite print_file_list_generated by done.
    fold entries. by destruct entries.
Qed.

End Generator.

(** ** The specification at work *)

(** The end-to-end scenario of the specification: one rule, one file. *)
Example end_to_end :
  make_domain_substitution_script sample_Nd reliable "rules" "files" "gen.sh"
    {[ "rules" := TextFile (U "foo\.com#example\.com" ++ [LF]);
       "files" := TextFile (U "src/config.txt" ++ [LF]) ]} =
  (Returned tt,
   <["gen.sh" :=
       TextFile
         (join [LF]
            (head_lines ++ [U "src/config.txt"] ++ mid_lines (U "1") ++
             [U "    s#foo\.com#example\.com#g;"] ++ tail_lines))]>
     {[ "rules" := TextFile (U "foo\.com#example\.com" ++ [LF]);
        "files" := TextFile (U "src/config.txt" ++ [LF]) ]}).
Proof. by rewrite run_cases. Qed.

(** The same call once more finds the script in place, raises and leaves it
    as it is. *)
Example end_to_end_again script :
  let σ : fs :=
    <["gen.sh" := TextFile script]>
      {[ "rules" := TextFile (U "foo\.com#example\.com" ++ [LF]);
         "files" := TextFile (U "src/config.txt" ++ [LF]) ]} in
  make_domain_substitution_script sample_Nd reliable "rules" "files" "gen.sh" σ =
  (Raised (FileExistsError "gen.sh"), σ).
Proof. intros σ. by rewrite run_cases. Qed.

Example re_sub_examples :
  re_sub sample_Nd (U "f0ntz\g<1>.9oo91e8p1\g<2>.qjz9zk") =
    U "f0ntz${1}.9oo91e8p1${2}.qjz9zk" /\
  re_sub sample_Nd (U "a\g<12>b\g<>c\g<0>") = U "a${12}b\g<>c${0}" /\
  re_sub sample_Nd (U "\g<1\g<2>>") = U "\g<1${2}>" /\
  re_sub sample_Nd (U "\g<" ++ [1635] ++ U ">") = U "${" ++ [1635] ++ U "}".
Proof. repeat split; reflexivity. Qed.

Example splitlines_examples :
  splitlines (U "a" ++ [CR; CR; LF] ++ U "b" ++ [LF; CR] ++ U "c" ++ [CR]) =
    [U "a"; []; U "b"; []; U "c"] /\
  splitlines [LF] = [[]] /\
  splitlines (U "a" ++ [12] ++ U "b" ++ [8232]) = [U "a"; U "b"].
Proof. repeat split; reflexivity. Qed.

(** A path with a line separator (U+2028) in it is one line of a
    newline-delimited files list and two entries of the list as line 36
    reads it. *)
Example entries_of_a_line_with_a_separator :
  filter (fun l => l <> [])
    (split_lf (universal_newlines (U "dir/a" ++ [8232] ++ U "b.txt" ++ [LF]))) =
    [U "dir/a" ++ [8232] ++ U "b.txt"] /\
  filter_len
    (splitlines (universal_newlines (U "dir/a" ++ [8232] ++ U "b.txt" ++ [LF]))) =
    [U "dir/a"; U "b.txt"].
Proof. split; vm_compute; reflexivity. Qed.

(** With both lists readable and the output path free the run still raises
    when the output cannot be opened, and leaves everything as it was. *)
Example open_failure :
  make_domain_substitution_script sample_Nd no_directory
    "domain_regex.list" "domain_substitution.list" "nodir/gen.sh" sample_fs =
  (Raised (FileNotFoundError "nodir/gen.sh"), sample_fs).
Proof. by rewrite run_cases. Qed.





Lemma deterministic_witness :
  exists s,
    make_domain_substitution_script sample_Nd reliable
      "domain_regex.list" "domain_substitution.list" "gen.sh" sample_fs =
    (Returned tt, <["gen.sh" := TextFile s]> sample_fs) /\
    make_domain_substitution_script sample_Nd reliable
      "domain_regex.list" "domain_substitution.list" "domain_regex.list.sh"
      sample_fs_with_output =
    (Returned tt,
     <["domain_regex.list.sh" := TextFile s]> sample_fs_with_output).
Proof.
  destruct (deterministic sample_Nd reliable sample_fs sample_fs_with_output
              "domain_regex.list" "domain_substitution.list" "gen.sh"
              "domain_regex.list" "domain_substitution.list"
              "domain_regex.list.sh" sample_rules sample_files
              eq_refl eq_refl eq_refl eq_refl eq_refl eq_refl)
    as (s & _ & Hreturn).
  exists s. apply Hreturn; split; reflexivity.
Defined.

(** C3 as first stated fails: a rule with a form feed in it is one
    non-blank line of the newline-delimited rules list and has two
    statements in the script, one for what stands before the form feed and
    one for what stands behind it. *)
Lemma one_statement_per_rule_counterexample :
  exists script,
    make_domain_substitution_script sample_Nd reliable
      "domain_regex.list" "domain_substitution.list" "gen.sh"
      sample_fs_rules_FF =
    (Returned tt, <["gen.sh" := TextFile script]> sample_fs_rules_FF) /\
    filter (fun l => l <> []) (split_lf (universal_newlines sample_rules_FF)) =
      [U "foo" ++ [12] ++ U "bar#baz"] /\
    split_lf script =
      head_lines ++ [U "src/config.txt"; U "a b"] ++ mid_lines (U "2") ++
      [U "    s#foo#g;"; U "    s#bar#baz#g;"] ++ tail_lines.
Proof.
  exists (generated sample_Nd sample_rules_FF sample_files).
  split; [by apply run_success|].
  split; vm_compute; reflexivity.
Qed.

Lemma one_statement_per_rule_witness :
  exists script,
    make_domain_substitution_script sample_Nd reliable
      "domain_regex.list" "domain_substitution.list" "gen.sh" sample_fs =
    (Returned tt, <["gen.sh" := TextFile script]> sample_fs) /\
    split_lf script =
      head_lines ++ [U "src/config.txt"; U "a b"] ++ mid_lines (U "2") ++
      [U "    s#foo\.com#example\.com#g;";
       U "    s#fonts(\\*?)\.googleapis#f0ntz${1}.9oo91e8p1#g;"] ++
      tail_lines.
Proof.
  destruct (one_statement_per_rule sample_Nd reliable sample_fs
              "domain_regex.list" "domain_substitution.list" "gen.sh"
              sample_rules sample_files eq_refl eq_refl eq_refl eq_refl)
    as (script & _ & Hrun & Hlines & _).
  exists script. split; [apply Hrun; split; reflexivity | exact Hlines].
Defined.

Lemma group_reference_translation_witness :
  exists script i,
    make_domain_substitution_script sample_Nd reliable
      "domain_regex.list" "domain_substitution.list" "gen.sh" sample_fs =
    (Returned tt, <["gen.sh" := TextFile script]> sample_fs) /\
    split_lf script !! (27 + i)%nat =
      Some (U "    s#fonts(\\*?)\.googleapis#f0ntz${1}.9oo91e8p1#g;").
Proof.
  assert (Hnb : Forall (fun c => is_linebreak c = false) (U "1"))
    by (repeat constructor).
  destruct (group_reference_translation sample_Nd reliable sample_fs
              "domain_regex.list" "domain_substitution.list" "gen.sh"
              sample_rules sample_files
              (U "foo\.com#example\.com" ++ [LF; LF] ++
               U "fonts(\\*?)\.googleapis#f0ntz")
              (U "1") (U ".9oo91e8p1" ++ [LF])
              eq_refl eq_refl eq_refl eq_refl ltac:(discriminate) eq_refl Hnb)
    as (script & i & _ & Hrun & Hline & _).
  exists script, i. split; [apply Hrun; split; reflexivity | exact Hline].
Defined.

(** C5 as first stated fails: an entry [__END__] ends the here-document,
    and the entry behind it is not in what [print_file_list] prints. *)
Lemma file_list_fidelity_counterexample :
  exists script,
    make_domain_substitution_script sample_Nd reliable
      "domain_regex.list" "domain_substitution.list" "gen.sh"
      sample_fs_END =
    (Returned tt, <["gen.sh" := TextFile script]> sample_fs_END) /\
    filter (fun l => l <> []) (split_lf (universal_newlines sample_files_END)) =
      [U "a"; U "__END__"; U "b"] /\
    print_file_list script = [U "a"] /\
    U "b" ∉ print_file_list script.
Proof.
  exists (generated sample_Nd sample_rules sample_files_END).
  split; [by apply run_success|].
  split; [vm_compute; reflexivity|].
  assert (E : print_file_list
                (generated sample_Nd sample_rules sample_files_END) = [U "a"])
    by (vm_compute; reflexivity).
  split; [exact E|]. rewrite E.
  apply (bool_decide_unpack _). vm_compute. exact I.
Qed.

Lemma file_list_fidelity_witness :
  exists script,
    make_domain_substitution_script sample_Nd reliable
      "domain_regex.list" "domain_substitution.list" "gen.sh" sample_fs =
    (Returned tt, <["gen.sh" := TextFile script]> sample_fs) /\
    print_file_list script = [U "src/config.txt"; U "a b"].
Proof.
  assert (Hend : U "__END__" ∉
                 filter (fun l => l <> [])
                   (split_lf (universal_newlines sample_files)))
    by (apply (bool_decide_unpack _); vm_compute; exact I).
  destruct (file_list_fidelity sample_Nd reliable sample_fs
              "domain_regex.list" "domain_substitution.list" "gen.sh"
              sample_rules sample_files eq_refl eq_refl eq_refl eq_refl Hend)
    as (script & _ & Hrun & Hprint & _).
  exists script. split; [apply Hrun; split; reflexivity | exact Hprint].
Defined.

(** C6 as first stated fails: for the rule with a form feed in it the
    script has no statement that wraps the rule; the line where the
    statement would stand wraps what stands before the form feed. *)
Lemma substitution_wrapping_counterexample :
  exists script,
    make_domain_substitution_script sample_Nd reliable
      "domain_regex.list" "domain_substitution.list" "gen.sh"
      sample_fs_rules_FF =
    (Returned tt, <["gen.sh" := TextFile script]> sample_fs_rules_FF) /\
    filter (fun l => l <> []) (split_lf (universal_newlines sample_rules_FF))
      !! 0%nat = Some (U "foo" ++ [12] ++ U "bar#baz") /\
    re_sub sample_Nd (U "foo" ++ [12] ++ U "bar#baz") =
      U "foo" ++ [12] ++ U "bar#baz" /\
    split_lf script !! 27%nat = Some (U "    s#foo#g;") /\
    U "    s#foo" ++ [12] ++ U "bar#baz#g;" ∉ split_lf script.
Proof.
  exists (generated sample_Nd sample_rules_FF sample_files).
  split; [by apply run_success|].
  split; [vm_compute; reflexivity|].
  split; [vm_compute; reflexivity|].
  split; [vm_compute; reflexivity|].
  apply (bool_decide_unpack _). vm_compute. exact I.
Qed.

Lemma substitution_wrapping_witness :
  exists script i,
    make_domain_substitution_script sample_Nd reliable
      "domain_regex.list" "domain_substitution.list" "gen.sh" sample_fs =
    (Returned tt, <["gen.sh" := TextFile script]> sample_fs) /\
    split_lf script !! (27 + i)%nat =
    Some (U "    s#fonts(\\*?)\.googleapis#f0ntz${1}.9oo91e8p1#g;") /\
    filter (fun l => l <> []) (split_lf (universal_newlines sample_rules)) !! i =
    Some (U "fonts(\\*?)\.googleapis#f0ntz\g<1>.9oo91e8p1").
Proof.
  assert (Hr : Forall (fun c => is_linebreak c = false)
                 (U "fonts(\\*?)\.googleapis#f0ntz\g<1>.9oo91e8p1"))
    by (repeat constructor).
  destruct (substitution_wrapping sample_Nd reliable sample_fs
              "domain_regex.list" "domain_substitution.list" "gen.sh"
              sample_rules sample_files
              (U "foo\.com#example\.com" ++ [LF; LF])
              (U "fonts(\\*?)\.googleapis#f0ntz\g<1>.9oo91e8p1") [LF]
              eq_refl eq_refl eq_refl eq_refl ltac:(discriminate) Hr
              (or_intror (ex_intro _ LF (conj eq_refl eq_refl)))
              (or_intror (ex_intro _ LF (conj eq_refl eq_refl))))
    as (script & i & _ & Hrun & _ & Hline & Hindex).
  exists script, i. split; [apply Hrun; split; reflexivity|].
  split; [exact Hline | exact (Hindex eq_refl)].
Defined.

(** C9 as first stated fails: a line that is a form feed and no more is a
    line of whitespace of the newline-delimited files list, and it is not
    among the entries: the script has the entries before and behind it and
    no line that is a form feed. *)
Lemma whitespace_lines_kept_counterexample :
  exists script,
    make_domain_substitution_script sample_Nd reliable
      "domain_regex.list" "domain_substitution.list" "gen.sh"
      sample_fs_files_FF =
    (Returned tt, <["gen.sh" := TextFile script]> sample_fs_files_FF) /\
    filter (fun l => l <> []) (split_lf (universal_newlines sample_files_FF)) =
      [U "a"; [12]; U "b"] /\
    print_file_list script = [U "a"; U "b"] /\
    [12] ∉ split_lf script.
Proof.
  exists (generated sample_Nd sample_rules sample_files_FF).
  split; [by apply run_success|].
  split; [vm_compute; reflexivity|].
  split; [vm_compute; reflexivity|].
  apply (bool_decide_unpack _). vm_compute. exact I.
Qed.

Lemma whitespace_lines_kept_witness :
  exists script i j,
    make_domain_substitution_script sample_Nd reliable
      "domain_regex.list" "domain_substitution.list" "gen.sh"
      sample_fs_blank =
    (Returned tt, <["gen.sh" := TextFile script]> sample_fs_blank) /\
    split_lf script !! (14 + i)%nat = Some [32; 9] /\
    split_lf script !! (28 + j)%nat = Some (U "    s#" ++ [32; 9] ++ U "#g;").
Proof.
  assert (Hws : Forall (fun c => is_linebreak c = false) [32; 9])
    by (repeat constructor).
  destruct (whitespace_lines_kept sample_Nd reliable sample_fs_blank
              "domain_regex.list" "domain_substitution.list" "gen.sh"
              sample_rules_blank sample_files_blank eq_refl eq_refl eq_refl)
    as (script & _ & Hrun & Hfiles & Hrules & _).
  destruct (Hfiles (U "a" ++ [LF]) [32; 9] ([LF] ++ U "b")
              eq_refl ltac:(discriminate) Hws
              (or_intror (ex_intro _ LF (conj eq_refl eq_refl)))
              (or_intror (ex_intro _ LF (conj eq_refl eq_refl))))
    as (i & _ & Hi).
  destruct (Hrules (U "foo#bar" ++ [LF]) [32; 9] ([LF] ++ U "baz#qux" ++ [LF])
              eq_refl ltac:(discriminate) Hws
              (or_intror (ex_intro _ LF (conj eq_refl eq_refl)))
              (or_intror (ex_intro _ LF (conj eq_refl eq_refl))))
    as (j & _ & Hj).
  exists script, i, j.
  split; [apply Hrun; split; reflexivity|]. split; [exact Hi | exact Hj].
Defined.

Lemma empty_files_list_witness :
  exists script,
    make_domain_substitution_script sample_Nd reliable
      "domain_regex.list" "domain_substitution.list" "gen.sh"
      sample_fs_no_files =
    (Returned tt, <["gen.sh" := TextFile script]> sample_fs_no_files) /\
    print_file_list script = [[]].
Proof.
  destruct (empty_files_list sample_Nd reliable sample_fs_no_files
              "domain_regex.list" "domain_substitution.list" "gen.sh"
              sample_rules [LF; CR; LF] eq_refl eq_refl eq_refl eq_refl)
    as (script & _ & Hrun & _ & Hprint & _).
  exists script. split; [apply Hrun; split; reflexivity | exact Hprint].
Defined.

(** ** The further properties at work *)

Lemma line_ends_do_not_matter_witness :
  exists script,
    make_domain_substitution_script sample_Nd reliable
      "domain_regex.list" "domain_substitution.list" "gen.sh" sample_fs =
    (Returned tt, <["gen.sh" := TextFile script]> sample_fs) /\
    make_domain_substitution_script sample_Nd reliable
      "domain_regex.list" "domain_substitution.list" "gen.sh"
      sample_fs_other_line_ends =
    (Returned tt, <["gen.sh" := TextFile script]> sample_fs_other_line_ends).
Proof.
  destruct (line_ends_do_not_matter sample_Nd reliable
              sample_fs sample_fs_other_line_ends
              "domain_regex.list" "domain_substitution.list" "gen.sh"
              "domain_regex.list" "domain_substitution.list" "gen.sh"
              sample_rules sample_files sample_rules_dos sample_files_mac
              eq_refl eq_refl eq_refl eq_refl eq_refl eq_refl eq_refl eq_refl)
    as (script & _ & Hreturn).
  exists script. apply Hreturn; split; reflexivity.
Defined.

Lemma entries_of_concatenation_witness :
  filter_len (splitlines (sample_rules ++ 12 :: sample_files)) =
  filter_len (splitlines sample_rules) ++ filter_len (splitlines sample_files).
Proof.
  exact (proj1 (entries_of_concatenation sample_rules 12 sample_files eq_refl)).
Defined.

Lemma entries_round_trip_witness :
  filter_len (splitlines (universal_newlines
                            (join [LF] [U "src/config.txt"; U "a b"]))) =
  [U "src/config.txt"; U "a b"].
Proof.
  apply (entries_round_trip [U "src/config.txt"; U "a b"]).
  repeat constructor; discriminate.
Defined.

Lemma re_sub_unchanged_iff_witness :
  perl_line (perl_op sample_Nd (U "foo\.com#example\.com")) =
  U "    s#" ++ U "foo\.com#example\.com" ++ U "#g;".
Proof.
  exact (proj2 (re_sub_unchanged_iff sample_Nd (U "foo\.com#example\.com"))
           eq_refl).
Defined.

Lemma delimiters_are_kept_witness :
  count_occ N.eq_dec
    (perl_op sample_Nd (U "fonts(\\*?)\.googleapis#f0ntz\g<1>.9oo91e8p1")) 35 =
  3%nat.
Proof.
  assert (Hc : 35 ∉ gref_chars)
    by (apply (bool_decide_unpack _); vm_compute; exact I).
  exact (proj1 (proj2 (delimiters_are_kept sample_Nd 35
                         (U "fonts(\\*?)\.googleapis#f0ntz\g<1>.9oo91e8p1")
                         Hc))).
Defined.

Lemma unreadable_list_witness :
  make_domain_substitution_script sample_Nd reliable
    "domain_regex.list" "domain_substitution.list" "gen.sh"
    sample_fs_directory =
  (Raised (IsADirectoryError "domain_regex.list"), sample_fs_directory).
Proof.
  exact (proj1 (unreadable_list sample_Nd reliable sample_fs_directory
                  "domain_regex.list" "domain_substitution.list" "gen.sh"
                  (ex_intro _ _ eq_refl) (ex_intro _ _ eq_refl) eq_refl)
           eq_refl).
Defined.


Lemma second_run_raises_witness :
  let σ' :=
    <["gen.sh" := TextFile (generated sample_Nd sample_rules sample_files)]>
      sample_fs in
  make_domain_substitution_script sample_Nd reliable
    "domain_regex.list" "domain_substitution.list" "gen.sh" σ' =
  (Raised (FileExistsError "gen.sh"), σ').
Proof.
  intros σ'.
  apply (second_run_raises sample_Nd reliable sample_fs σ'
           "domain_regex.list" "domain_substitution.list" "gen.sh").
  vm_compute. reflexivity.
Defined.

Lemma progress_count_witness :
  exists script,
    make_domain_substitution_script sample_Nd reliable
      "domain_regex.list" "domain_substitution.list" "gen.sh" sample_fs =
    (Returned tt, <["gen.sh" := TextFile script]> sample_fs) /\
    split_lf script !! 24%nat =
      Some (applying_pre ++ U "2" ++ applying_post) /\
    length (print_file_list script) = 2%nat.
Proof.
  destruct (progress_count sample_Nd reliable sample_fs
              "domain_regex.list" "domain_substitution.list" "gen.sh"
              sample_rules sample_files eq_refl eq_refl eq_refl)
    as (script & _ & Hrun & Hline & Hcount).
  exists script. split; [apply Hrun; split; reflexivity|].
  split; [exact Hline|].
  apply Hcount.
  - discriminate.
  - apply (bool_decide_unpack _). vm_compute. exact I.
Defined.
